(** * SimpleML_EA: the poll / parse / normalize / execute cycle

    A shallow embedding of [SimpleML_EA.mq5]: the text scanner
    [ParseSingleTrade] and the timer handler [OnTimer], over the string
    builtins of the terminal they call. *)

From Stdlib Require Import String.
From Stdlib Require Import List ZArith Lia Bool Ascii QArith.
Import ListNotations.
Open Scope Z_scope.

(** ** Terminal strings and the string builtins used by the expert *)

Module MQL.

(** A terminal string is a sequence of characters; positions are [int]s,
    kept as [Z].  Every position the expert computes is at most the length
    of the payload plus nine, far below [2^31], so no wrap-around is
    involved. *)
Definition mstring : Type := list ascii.

Definition str (s : String.string) : mstring := String.list_ascii_of_string s.
Arguments str s%_string.

(** The double-quote character (code 34), escaped in the literals of the
    source. *)
Definition dquote : ascii := ascii_of_nat 34.

Fixpoint starts_with (m s : mstring) : bool :=
  match m, s with
  | [], _ => true
  | _ :: _, [] => false
  | a :: m', b :: s' => Ascii.eqb a b && starts_with m' s'
  end.

(** Index of the first suffix of [s] that starts with [m], counting the
    head of [s] as index [i]. *)
Fixpoint find_first (m s : mstring) (i : nat) {struct s} : option nat :=
  if starts_with m s then Some i
  else match s with
       | [] => None
       | _ :: s' => find_first m s' (S i)
       end.

(** [StringFind(s, m, start_pos)]: position of the first occurrence of [m]
    in [s] at or after [start_pos], or [-1]. *)
Definition StringFind (s m : mstring) (start_pos : Z) : Z :=
  match find_first m (skipn (Z.to_nat start_pos) s) (Z.to_nat start_pos) with
  | Some i => Z.of_nat i
  | None => -1
  end.

(** [StringSubstr(s, start_pos, length)]: at most [length] characters from
    [start_pos]; a negative [length] takes the rest of the string. *)
Definition StringSubstr (s : mstring) (start_pos length : Z) : mstring :=
  let rest := skipn (Z.to_nat start_pos) s in
  if length <? 0 then rest else firstn (Z.to_nat length) rest.

(** Characters cut by the trimming builtins: space, tab, line feed,
    carriage return. *)
Definition is_blank (c : ascii) : bool :=
  let n := nat_of_ascii c in
  (n =? 32)%nat || (n =? 9)%nat || (n =? 10)%nat || (n =? 13)%nat.

Fixpoint StringTrimLeft (s : mstring) : mstring :=
  match s with
  | [] => []
  | c :: s' => if is_blank c then StringTrimLeft s' else s
  end.

Definition StringTrimRight (s : mstring) : mstring :=
  rev (StringTrimLeft (rev s)).

(** [CharArrayToString(result)]: the bytes up to the end of the array or
    the first terminating zero. *)
Fixpoint CharArrayToString (a : list ascii) : mstring :=
  match a with
  | [] => []
  | c :: a' => if Ascii.eqb c zero then [] else c :: CharArrayToString a'
  end.

End MQL.
Import MQL.

(** ** The expert *)

(** Early [return false] of the scanner. *)
Notation "x <- c ;; k" :=
  (match c with Some x => k | None => None end)
  (at level 61, c at next level, right associativity).
Notation "' p <- c ;; k" :=
  (match c with Some p => k | None => None end)
  (at level 61, p pattern, c at next level, right associativity).

(** The six recognized fields, in the order the scanner reads them. *)
Inductive Field : Type :=
  FSymbol | FEntry | FSl | FTp | FLot | FIsBuy.

Definition field_name (f : Field) : String.string :=
  match f with
  | FSymbol => "symbol"
  | FEntry => "entry_price"
  | FSl => "sl_price"
  | FTp => "tp_price"
  | FLot => "lot_size"
  | FIsBuy => "is_buy"
  end%string.

(** The search key of a field: its name between double quotes, followed by
    a colon. *)
Definition key (f : Field) : mstring :=
  dquote :: str (field_name f) ++ [dquote; ":"%char].
Arguments key : simpl never.

Section Expert.

(** The terminal's [double] and the two numeric builtins the expert calls;
    both are total: neither has a failure result. *)
Variable double : Type.
Variable StringToDouble : mstring -> double.
Variable NormalizeDouble : double -> Z -> double.

(** The reference parameters of [ParseSingleTrade]. *)
Record TradeSignal : Type := mkSignal {
  symbol : mstring;
  entry : double;
  sl : double;
  tp : double;
  lot : double;
  isBuy : bool
}.

(** Lines 39-46: the instrument, between the first two quotes after the
    key.  Returns the value and [e], the position of the closing quote. *)
Definition read_symbol (json : mstring) (start_pos : Z) : option (mstring * Z) :=
  let pos := StringFind json (key FSymbol) start_pos in
  if pos <? 0 then None else
  let s := StringFind json [dquote] (pos + 9) in
  if s <? 0 then None else
  let s := s + 1 in
  let e := StringFind json [dquote] s in
  if (e <? 0) || (e <=? s) then None else
  Some (StringSubstr json s (e - s), e).

(** [pos = StringFind(json, key, e); s = StringFind(json, ":", pos) + 1],
    with their two guards: the position just after the key's colon. *)
Definition value_start (json : mstring) (f : Field) (e : Z) : option Z :=
  let pos := StringFind json (key f) e in
  if pos <? 0 then None else
  let s := StringFind json (str ":") pos + 1 in
  if s <=? 0 then None else
  Some s.

(** The end of a numeric value: the next comma, or else the next closing
    brace; the value must not be empty. *)
Definition value_end (json : mstring) (s : Z) : option Z :=
  let e := StringFind json (str ",") s in
  let e := if e <? 0 then StringFind json (str "}") s else e in
  if (e <? 0) || (e <=? s) then None else
  Some e.

(** Lines 48-57, 59-68, 70-79, 81-90: one numeric field. *)
Definition read_double (json : mstring) (f : Field) (e : Z) : option (double * Z) :=
  s <- value_start json f e ;;
  e <- value_end json s ;;
  let temp := StringSubstr json s (e - s) in
  let temp := StringTrimRight (StringTrimLeft temp) in
  Some (StringToDouble temp, e).

(** The text tested for the direction: five characters from [s], trimmed. *)
Definition direction_window (json : mstring) (s : Z) : mstring :=
  StringTrimRight (StringTrimLeft (StringSubstr json s 5)).

(** Lines 92-98: the direction flag. *)
Definition read_is_buy (json : mstring) (e : Z) : option bool :=
  s <- value_start json FIsBuy e ;;
  let temp := direction_window json s in
  Some (0 <=? StringFind temp (str "true") 0).

Definition ParseSingleTrade (json : mstring) (start_pos : Z) : option TradeSignal :=
  '(symbol, e) <- read_symbol json start_pos ;;
  '(entry, e) <- read_double json FEntry e ;;
  '(sl, e) <- read_double json FSl e ;;
  '(tp, e) <- read_double json FTp e ;;
  '(lot, e) <- read_double json FLot e ;;
  isBuy <- read_is_buy json e ;;
  Some (mkSignal symbol entry sl tp lot isBuy).

(** The [input] parameters of the expert. *)
Record Inputs : Type := mkInputs {
  SignalURL : mstring;
  CheckInterval : Z;
  MagicNumber : Z;
  TradeComment : mstring
}.

(** What the terminal answers during one timer event: the reply to the
    web request, the venue's table of price digits (an instrument the venue
    does not know has no entry) and the venue's verdict on an order. *)
Record Terminal : Type := mkTerminal {
  web_status : Z;
  web_result : list ascii;
  instrument_precision : mstring -> option Z;
  order_accepted : bool -> double -> mstring -> double -> double -> double -> bool
}.

(** [SymbolInfoInteger(symbol, SYMBOL_DIGITS)] in its one-value form: the
    property, or 0 when the lookup fails. *)
Definition SymbolInfoInteger (T : Terminal) (name : mstring) : Z :=
  match instrument_precision T name with
  | Some d => d
  | None => 0
  end.

(** The calls one timer event makes to the terminal, in order. *)
Inductive Call : Type :=
  | CallWebRequest (method url : mstring) (timeout : Z)
  | CallSymbolInfoInteger (name : mstring)
  | CallBuy (volume : double) (name : mstring) (price sl tp : double)
            (comment : mstring)
  | CallSell (volume : double) (name : mstring) (price sl tp : double)
             (comment : mstring)
  | CallPrint (name : mstring) (buy : bool) (lot entry sl tp : double)
              (placed : bool).

Definition OnTimer (I : Inputs) (T : Terminal) : list Call :=
  CallWebRequest (str "GET") (SignalURL I) 2000 ::
  if negb (web_status T =? 200) then [] else
  let json := CharArrayToString (web_result T) in
  let pos := StringFind json (str "{") 0 in
  if pos <? 0 then [] else
  match ParseSingleTrade json pos with
  | None => []
  | Some sig =>
    let digits := SymbolInfoInteger T (symbol sig) in
    let entry := NormalizeDouble (entry sig) digits in
    let sl := NormalizeDouble (sl sig) digits in
    let tp := NormalizeDouble (tp sig) digits in
    let placed := order_accepted T (isBuy sig) (lot sig) (symbol sig) entry sl tp in
    [ CallSymbolInfoInteger (symbol sig);
      (if isBuy sig then CallBuy else CallSell)
        (lot sig) (symbol sig) entry sl tp (TradeComment I);
      CallPrint (symbol sig) (isBuy sig) (lot sig) entry sl tp placed ]
  end.

(** The order submissions among the calls of a cycle. *)
Definition is_submission (c : Call) : bool :=
  match c with
  | CallBuy _ _ _ _ _ _ | CallSell _ _ _ _ _ _ => true
  | _ => false
  end.

Definition submissions (calls : list Call) : list Call :=
  filter is_submission calls.

End Expert.

Arguments mkSignal {double}.
Arguments symbol {double}.
Arguments entry {double}.
Arguments sl {double}.
Arguments tp {double}.
Arguments lot {double}.
Arguments isBuy {double}.
Arguments mkTerminal {double}.
Arguments web_status {double}.
Arguments web_result {double}.
Arguments instrument_precision {double}.
Arguments order_accepted {double}.
Arguments SymbolInfoInteger {double}.
Arguments CallWebRequest {double}.
Arguments CallSymbolInfoInteger {double}.
Arguments CallBuy {double}.
Arguments CallSell {double}.
Arguments CallPrint {double}.
Arguments ParseSingleTrade {double}.
Arguments read_double {double}.
Arguments OnTimer {double}.
Arguments is_submission {double}.
Arguments submissions {double}.

(** The inputs as declared in the source. *)
Definition default_inputs : Inputs :=
  mkInputs (str "http://127.0.0.1:5000/trade_signal") 1 20250824 (str "ML_EA").

(** ** An exact-decimal terminal

    An instance of the numeric builtins on rationals, for evaluating the
    expert on concrete payloads: a decimal literal denotes its exact value
    and rounding to [digits] places is exact. *)

Module Exact.

Definition digit_of (c : ascii) : option Z :=
  let n := nat_of_ascii c in
  if ((48 <=? n) && (n <=? 57))%nat then Some (Z.of_nat n - 48) else None.

(** Reads a run of digits: the accumulated value, the number of digits
    read and the rest of the text. *)
Fixpoint read_digits (s : mstring) (acc : Z) (n : nat) : Z * nat * mstring :=
  match s with
  | [] => (acc, n, [])
  | c :: s' =>
    match digit_of c with
    | Some d => read_digits s' (10 * acc + d) (S n)
    | None => (acc, n, s)
    end
  end.

(** The value of the longest leading decimal literal (sign, digits,
    optional fraction) of the text; 0 when there is none.  Exponents are
    not read. *)
Definition StringToDouble (s : mstring) : Q :=
  let s := StringTrimLeft s in
  let '(neg, s) :=
    match s with
    | "-"%char :: s' => (true, s')
    | "+"%char :: s' => (false, s')
    | _ => (false, s)
    end in
  let '(ip, _, rest) := read_digits s 0 0 in
  let '(m, k) :=
    match rest with
    | "."%char :: r => let '(m, k, _) := read_digits r ip 0 in (m, k)
    | _ => (ip, 0%nat)
    end in
  Qred ((if neg then - m else m) # Pos.of_nat (10 ^ k)).

(** [q] times [10^digits], rounded to an integer, halves away from zero. *)
Definition scaled (q : Q) (digits : Z) : Z :=
  let k := 10 ^ Z.max 0 digits in
  Z.quot (Qnum q * k * 2 + Z.sgn (Qnum q) * Z.pos (Qden q)) (2 * Z.pos (Qden q)).

(** Rounding to [digits] decimal places. *)
Definition NormalizeDouble (q : Q) (digits : Z) : Q :=
  Qred (scaled q digits # Z.to_pos (10 ^ Z.max 0 digits)).

Fixpoint uint_text (u : Decimal.uint) : mstring :=
  match u with
  | Decimal.Nil => []
  | Decimal.D0 u => "0"%char :: uint_text u
  | Decimal.D1 u => "1"%char :: uint_text u
  | Decimal.D2 u => "2"%char :: uint_text u
  | Decimal.D3 u => "3"%char :: uint_text u
  | Decimal.D4 u => "4"%char :: uint_text u
  | Decimal.D5 u => "5"%char :: uint_text u
  | Decimal.D6 u => "6"%char :: uint_text u
  | Decimal.D7 u => "7"%char :: uint_text u
  | Decimal.D8 u => "8"%char :: uint_text u
  | Decimal.D9 u => "9"%char :: uint_text u
  end.

Definition Z_text (n : Z) : mstring := uint_text (N.to_uint (Z.to_N n)).

(** The decimal text of [q] with [digits] places after the point. *)
Definition DoubleToString (q : Q) (digits : Z) : mstring :=
  let k := 10 ^ Z.max 0 digits in
  let x := scaled q digits in
  let a := Z.abs x in
  (if x <? 0 then str "-" else []) ++ Z_text (a / k) ++
  (if digits <=? 0 then [] else "."%char :: tl (Z_text (k + a mod k))).

End Exact.

(** ** Notions used to state the properties *)

(** [m] occurs in [s] at position [p]. *)
Definition occurs_at (m s : mstring) (p : nat) : Prop :=
  exists a b : mstring, s = a ++ m ++ b /\ length a = p.

(** [m] occurs somewhere in [s]. *)
Definition contains (m s : mstring) : Prop := exists p : nat, occurs_at m s p.

(** Position-only reading of a numeric field: where its value ends. *)
Definition skip_double (json : mstring) (f : Field) (e : Z) : option Z :=
  s <- value_start json f e ;; value_end json s.

(** The position from which the key of field [f] is searched: [start_pos]
    for the instrument, and for every later field the position [e] at which
    the previous field's value ended. *)
Definition search_from (json : mstring) (start_pos : Z) (f : Field) : option Z :=
  let after_symbol := option_map snd (read_symbol json start_pos) in
  let next (oe : option Z) (g : Field) := e <- oe ;; skip_double json g e in
  match f with
  | FSymbol => Some start_pos
  | FEntry => after_symbol
  | FSl => next after_symbol FEntry
  | FTp => next (next after_symbol FEntry) FSl
  | FLot => next (next (next after_symbol FEntry) FSl) FTp
  | FIsBuy => next (next (next (next after_symbol FEntry) FSl) FTp) FLot
  end.

(** What reading field [f] from [e] yields as a position: the end of the
    value, and for the direction flag the start of its window. *)
Definition stage_end (json : mstring) (f : Field) (e : Z) : option Z :=
  match f with
  | FSymbol => option_map snd (read_symbol json e)
  | FIsBuy => value_start json FIsBuy e
  | _ => skip_double json f e
  end.

(** Field [f] is located at [p] when its key occurs there, and isolated
    when its value has the delimiters the scanner looks for: two quotes
    with something between them for the instrument, a later comma or
    closing brace for a number; the direction flag needs no delimiter. *)
Definition isolated (json : mstring) (f : Field) (p : nat) : Prop :=
  match f with
  | FSymbol =>
      exists q1 q2 : nat,
        (p + 9 <= q1)%nat /\ (q1 + 1 < q2)%nat /\
        occurs_at [dquote] json q1 /\ occurs_at [dquote] json q2
  | FIsBuy => True
  | _ =>
      exists q : nat,
        (p + length (key f) < q)%nat /\
        (occurs_at (str ",") json q \/ occurs_at (str "}") json q)
  end.

Definition field_present (json : mstring) (f : Field) : Prop :=
  exists p : nat, occurs_at (key f) json p /\ isolated json f p.

Definition is_numeric (f : Field) : bool :=
  match f with
  | FEntry | FSl | FTp | FLot => true
  | FSymbol | FIsBuy => false
  end.

(** A payload with the six fields in the order the scanner reads them, the
    instrument between quotes and the other values as given texts. *)
Definition build_payload (name entry sl tp lot dir : mstring) : mstring :=
  str "{" ++ key FSymbol ++ dquote :: name ++ dquote :: str "," ++
  key FEntry ++ entry ++ str "," ++
  key FSl ++ sl ++ str "," ++
  key FTp ++ tp ++ str "," ++
  key FLot ++ lot ++ str "," ++
  key FIsBuy ++ dir ++ str "}".

(** A terminal that answers 200 with the given payload. *)
Definition serving {double : Type} (payload : mstring)
    (precision : mstring -> option Z) : Terminal double :=
  mkTerminal 200 payload precision (fun _ _ _ _ _ _ => true).

(** The two spellings of the direction on the wire. *)
Definition direction_text (b : bool) : mstring :=
  if b then str "true" else str "false".

(** The separators that precede a key in a built payload. *)
Definition gap (j : mstring) : Prop := j = str "," \/ j = dquote :: str ",".

Section Observations.

Variable double : Type.
Variable StringToDouble : mstring -> double.
Variable NormalizeDouble : double -> Z -> double.

Implicit Types (I : Inputs) (T : Terminal double) (sig : TradeSignal double).

(** The payload of a cycle and the position its scan starts from. *)
Definition payload_of T : mstring := CharArrayToString (web_result T).
Definition scan_start T : Z := StringFind (payload_of T) (str "{") 0.

(** The signal a cycle acts upon, if any. *)
Definition parsed_signal T : option (TradeSignal double) :=
  if negb (web_status T =? 200) then None
  else if scan_start T <? 0 then None
  else ParseSingleTrade StringToDouble (payload_of T) (scan_start T).

(** The order a signal is submitted as, its prices rounded to [digits]. *)
Definition order_for I sig (digits : Z) : Call double :=
  (if isBuy sig then CallBuy else CallSell)
    (lot sig) (symbol sig)
    (NormalizeDouble (entry sig) digits)
    (NormalizeDouble (sl sig) digits)
    (NormalizeDouble (tp sig) digits)
    (TradeComment I).

(** A signal whose numbers are still texts, converted. *)
Definition convert (r : TradeSignal mstring) : TradeSignal double :=
  mkSignal (symbol r) (StringToDouble (entry r)) (StringToDouble (sl r))
           (StringToDouble (tp r)) (StringToDouble (lot r)) (isBuy r).

End Observations.

Arguments payload_of {double}.
Arguments scan_start {double}.
Arguments parsed_signal {double}.
Arguments order_for {double}.
Arguments convert {double}.

Section Wire.

Variable double : Type.
Variable StringToDouble : mstring -> double.

(** The printer a payload is built with. *)
Variable fmt : double -> mstring.

(** The payload built from an instruction: the six fields in order. *)
Definition payload_for (i : TradeSignal double) : mstring :=
  build_payload (symbol i) (fmt (entry i)) (fmt (sl i)) (fmt (tp i))
                (fmt (lot i)) (direction_text (isBuy i)).

(** A number survives the wire when its printed text is not empty, has no
    comma and converts back to it. *)
Definition wire_ok (v : double) : Prop :=
  fmt v <> [] /\ ~ In ","%char (fmt v) /\
  StringToDouble (StringTrimRight (StringTrimLeft (fmt v))) = v.

End Wire.

Arguments payload_for {double}.
Arguments wire_ok {double}.

(** ** Concrete payloads and terminals *)

Definition payload (name entry sl tp lot dir : String.string) : mstring :=
  build_payload (str name) (str entry) (str sl) (str tp) (str lot) (str dir).

Definition sample_payload : mstring :=
  payload "EURUSD" "1.23456" "1.2" "1.3" "0.10" "true".

Definition sample_signal : TradeSignal Q :=
  mkSignal (str "EURUSD") (3858 # 3125) (6 # 5) (13 # 10) (1 # 10) true.

(** Two spaces before the direction value. *)
Definition padded_payload : mstring :=
  payload "EURUSD" "1.23456" "1.2" "1.3" "0.10" "  true".

Definition upper_payload : mstring :=
  payload "EURUSD" "1.23456" "1.2" "1.3" "0.10" "TRUE".

(** The payload cut after the size: no direction field. *)
Definition no_direction_payload : mstring :=
  str "{" ++ key FSymbol ++ dquote :: str "EURUSD" ++ dquote :: str "," ++
  key FEntry ++ str "1.23456," ++ key FSl ++ str "1.2," ++
  key FTp ++ str "1.3," ++ key FLot ++ str "0.10}".

(** No take-profit field. *)
Definition no_tp_payload : mstring :=
  str "{" ++ key FSymbol ++ dquote :: str "EURUSD" ++ dquote :: str "," ++
  key FEntry ++ str "1.23456," ++ key FSl ++ str "1.2," ++
  key FLot ++ str "0.10," ++ key FIsBuy ++ str "true}".

(** The entry price written before the instrument. *)
Definition swapped_payload : mstring :=
  str "{" ++ key FEntry ++ str "1.23456," ++
  key FSymbol ++ dquote :: str "EURUSD" ++ dquote :: str "," ++
  key FSl ++ str "1.2," ++ key FTp ++ str "1.3," ++
  key FLot ++ str "0.10," ++ key FIsBuy ++ str "true}".

(** An entry price that is not a number. *)
Definition text_entry_payload : mstring :=
  payload "EURUSD" "abc" "1.2" "1.3" "0.10" "true".

(** Nothing between the colon of the entry price and the next comma. *)
Definition empty_entry_payload : mstring :=
  build_payload (str "EURUSD") [] (str "1.2") (str "1.3") (str "0.10") (str "true").

Definition negative_size_payload : mstring :=
  payload "EURUSD" "1.23456" "1.2" "1.3" "-0.10" "false".

Definition negative_size_signal : TradeSignal Q :=
  mkSignal (str "EURUSD") (3858 # 3125) (6 # 5) (13 # 10) (-1 # 10) false.

Definition refused_terminal : Terminal Q :=
  mkTerminal 404 sample_payload (fun _ => Some 5) (fun _ _ _ _ _ _ => true).

Definition unknown_venue : Terminal Q := serving sample_payload (fun _ => None).

Definition two_digit_venue : Terminal Q := serving sample_payload (fun _ => Some 2).

Definition negative_size_terminal : Terminal Q :=
  serving negative_size_payload (fun _ => Some 2).

(** The raw text of the direction field as a final field is isolated:
    from the colon of its key to the closing brace of the object. *)
Definition spec_direction_text (json : mstring) : mstring :=
  let pos := StringFind json (key FIsBuy) 0 in
  let s := StringFind json (str ":") pos + 1 in
  StringSubstr json s (StringFind json (str "}") s - s).

(** The printer of the built payloads: five decimal places. *)
Definition five_places (q : Q) : mstring := Exact.DoubleToString q 5.

Definition padded_signal : TradeSignal Q :=
  mkSignal (str "EURUSD") (3858 # 3125) (6 # 5) (13 # 10) (1 # 10) false.

(** ** The other handlers, and a session of events *)

(** The calls the expert makes to the terminal outside a timer event. *)
Inductive Setup : Type :=
  | CallSetExpertMagicNumber (magic : Z)
  | CallEventSetTimer (seconds : Z)
  | CallEventKillTimer
  | CallPrintText (text : mstring).

Definition INIT_SUCCEEDED : Z := 0.

(** [OnInit]: tags the trade object, arms the timer, and reports success
    without examining either call. *)
Definition OnInit (I : Inputs) : list Setup * Z :=
  ([ CallSetExpertMagicNumber (MagicNumber I);
     CallEventSetTimer (CheckInterval I);
     CallPrintText (str "SimpleML_EA initialized.") ],
   INIT_SUCCEEDED).

Definition OnDeinit (reason : Z) : list Setup :=
  [ CallEventKillTimer; CallPrintText (str "SimpleML_EA stopped.") ].

(** [OnTick] has an empty body. *)
Definition OnTick {double : Type} : list (Call double) := [].

(** What the terminal delivers between initialization and shutdown: price
    ticks, and timer events with the answers the terminal gives during
    each. *)
Inductive Event (double : Type) : Type :=
  | Tick
  | Timer (T : Terminal double).

Arguments Tick {double}.
Arguments Timer {double}.

Section Session.

Variable double : Type.
Variable StringToDouble : mstring -> double.
Variable NormalizeDouble : double -> Z -> double.

Definition handle (I : Inputs) (ev : Event double) : list (Call double) :=
  match ev with
  | Tick => OnTick
  | Timer T => OnTimer StringToDouble NormalizeDouble I T
  end.

(** The calls of a whole session, in order. *)
Definition session (I : Inputs) (events : list (Event double)) (reason : Z)
    : list (Setup + Call double) :=
  map inl (fst (OnInit I)) ++
  map inr (flat_map (handle I) events) ++
  map inl (OnDeinit reason).

(** The order submissions of a session. *)
Definition session_orders (log : list (Setup + Call double)) : list (Call double) :=
  submissions
    (flat_map (fun x => match x with inr c => [c] | inl _ => [] end) log).

Definition timer_count (events : list (Event double)) : nat :=
  length (filter (fun ev => match ev with Timer _ => true | Tick => false end) events).

End Session.

Arguments handle {double}.
Arguments session {double}.
Arguments session_orders {double}.
Arguments timer_count {double}.

(** The log calls among the calls of a cycle. *)
Definition is_print {double : Type} (c : Call double) : bool :=
  match c with
  | CallPrint _ _ _ _ _ _ _ => true
  | _ => false
  end.

(** The field read after [f]. *)
Definition next_field (f : Field) : option Field :=
  match f with
  | FSymbol => Some FEntry
  | FEntry => Some FSl
  | FSl => Some FTp
  | FTp => Some FLot
  | FLot => Some FIsBuy
  | FIsBuy => None
  end.

(** A text made of characters the trimming builtins cut. *)
Definition blanks (w : mstring) : Prop := forallb is_blank w = true.

(** A payload with the six fields in order and blanks where writers of
    this format put them: [wb] after the opening brace, [ws] after each
    comma, [wc] after the colon of the first five fields, [wd] after the
    colon of the direction flag; [tail] is what follows the direction
    value, usually the closing brace. *)
Definition spaced_payload
    (wb ws wc wd name entry sl tp lot dir tail : mstring) : mstring :=
  str "{" ++ wb ++ key FSymbol ++ wc ++ dquote :: name ++ dquote :: str "," ++ ws ++
  key FEntry ++ wc ++ entry ++ str "," ++ ws ++
  key FSl ++ wc ++ sl ++ str "," ++ ws ++
  key FTp ++ wc ++ tp ++ str "," ++ ws ++
  key FLot ++ wc ++ lot ++ str "," ++ ws ++
  key FIsBuy ++ wd ++ dir ++ tail.

(** A text with no comma and no blank at either end. *)
Definition clean_number_text (t : mstring) : Prop :=
  ~ In ","%char t /\
  (forall c rest, t = c :: rest -> is_blank c = false) /\
  (forall init c, t = init ++ [c] -> is_blank c = false).

(** A result of the scanner with its position moved by [n]. *)
Definition moved {A : Type} (n : Z) (x : option (A * Z)) : option (A * Z) :=
  option_map (fun ve => (fst ve, n + snd ve)) x.

Section SpacedWire.

Variable double : Type.
Variable fmt : double -> mstring.

(** The payload built from an instruction with the given blanks and tail. *)
Definition spaced_payload_for (wb ws wc wd tail : mstring) (i : TradeSignal double)
    : mstring :=
  spaced_payload wb ws wc wd (symbol i) (fmt (entry i)) (fmt (sl i)) (fmt (tp i))
                 (fmt (lot i)) (direction_text (isBuy i)) tail.

End SpacedWire.

Arguments spaced_payload_for {double}.

(** A venue that refuses every order. *)
Definition refusing_venue : Terminal Q :=
  mkTerminal 200 sample_payload (fun _ => Some 2) (fun _ _ _ _ _ _ => false).

(** The sample payload without its opening brace. *)
Definition braceless_payload : mstring := tl sample_payload.

(** Text in front of the sample payload. *)
Definition banner : mstring := str "signal: ".

Definition newline : ascii := ascii_of_nat 10.

(** The layout of an indented writer: a line per field. *)
Definition indented_payload : mstring :=
  spaced_payload_for five_places (newline :: str "  ") (newline :: str "  ")
                     (str " ") (str " ") [newline; "}"%char] sample_signal.

(** ** Facts about the string builtins *)

Section SearchFacts.

Implicit Types (m s a b : mstring) (p i : nat).
Local Open Scope nat_scope.

Lemma starts_with_prefix m s :
  starts_with m s = true <-> exists b, s = m ++ b.
Proof.
  revert s; induction m as [|c m IH]; intros s; simpl.
  - split; [intros _; now exists s | trivial].
  - destruct s as [|d s].
    + split; [discriminate | intros [b Hb]; discriminate].
    + rewrite andb_true_iff, Ascii.eqb_eq, IH. split.
      * intros [-> [b ->]]. now exists b.
      * intros [b Hb]. injection Hb as -> ->. split; [reflexivity | now exists b].
Qed.

Lemma occurs_at_starts_with m s p :
  occurs_at m s p <-> p <= length s /\ starts_with m (skipn p s) = true.
Proof.
  unfold occurs_at. rewrite starts_with_prefix. split.
  - intros (a & b & -> & <-). split.
    + rewrite length_app. lia.
    + exists b. rewrite skipn_app, skipn_all, Nat.sub_diag. reflexivity.
  - intros (Hp & b & Hb). exists (firstn p s), b. split.
    + rewrite <- Hb. symmetry. apply firstn_skipn.
    + apply firstn_length_le. exact Hp.
Qed.

Lemma starts_with_nil m : starts_with m [] = true -> m = [].
Proof. destruct m; [reflexivity | discriminate]. Qed.

Lemma find_first_shift m s i :
  find_first m s i = option_map (fun k => i + k) (find_first m s 0).
Proof.
  revert i; induction s as [|c s IH]; intros i; simpl.
  - destruct (starts_with m []); simpl; [f_equal; lia | reflexivity].
  - destruct (starts_with m (c :: s)); simpl; [f_equal; lia|].
    rewrite (IH (S i)), (IH 1). destruct (find_first m s 0); simpl; [f_equal; lia | reflexivity].
Qed.

Lemma find_first_Some m s i j :
  find_first m s i = Some j ->
  exists k, j = i + k /\ k <= length s /\ starts_with m (skipn k s) = true /\
            forall k', k' < k -> starts_with m (skipn k' s) = false.
Proof.
  revert i; induction s as [|c s IH]; intros i; simpl.
  - destruct (starts_with m []) eqn:E; [|discriminate].
    intros [= <-]. exists 0. repeat split; [lia | lia | exact E | lia].
  - destruct (starts_with m (c :: s)) eqn:E.
    + intros [= <-]. exists 0. repeat split; [lia | lia | exact E | lia].
    + intros H. destruct (IH _ H) as (k & -> & Hk & Hs & Hmin).
      exists (S k). repeat split; [lia | lia | exact Hs |].
      intros [|k'] Hlt; [exact E | apply Hmin; lia].
Qed.

Lemma find_first_None m s i :
  find_first m s i = None -> forall k, starts_with m (skipn k s) = false.
Proof.
  revert i; induction s as [|c s IH]; intros i; simpl.
  - destruct (starts_with m []) eqn:E; [discriminate|].
    intros _ k. now rewrite skipn_nil.
  - destruct (starts_with m (c :: s)) eqn:E; [discriminate|].
    intros H [|k]; [exact E | exact (IH _ H k)].
Qed.

Lemma find_first_intro m s i k :
  k <= length s -> starts_with m (skipn k s) = true ->
  (forall k', k' < k -> starts_with m (skipn k' s) = false) ->
  find_first m s i = Some (i + k).
Proof.
  intros Hk Hs Hmin. destruct (find_first m s i) as [j|] eqn:E.
  - destruct (find_first_Some _ _ _ _ E) as (k0 & -> & _ & Hs0 & Hmin0).
    f_equal. destruct (Nat.lt_trichotomy k0 k) as [H|[H|H]]; [|lia|].
    + rewrite (Hmin _ H) in Hs0. discriminate.
    + rewrite (Hmin0 _ H) in Hs. discriminate.
  - rewrite (find_first_None _ _ _ E k) in Hs. discriminate.
Qed.

End SearchFacts.

Section StringFacts.

Implicit Types (m s a b : mstring) (p i : nat).

(** The result of a search is [-1] or a position. *)
Lemma StringFind_range s m start :
  StringFind s m start = -1 \/ 0 <= StringFind s m start.
Proof.
  unfold StringFind. destruct (find_first _ _ _); [right; lia | now left].
Qed.

(** A position returned by a search is an occurrence, at or after the start
    of the search, and the first such. *)
Lemma StringFind_found s m start r :
  m <> [] -> StringFind s m start = r -> 0 <= r ->
  occurs_at m s (Z.to_nat r) /\ start <= r /\
  forall p, (Z.to_nat start <= p < Z.to_nat r)%nat -> ~ occurs_at m s p.
Proof.
  intros Hm. unfold StringFind.
  destruct (find_first _ _ _) as [j|] eqn:E; [|intros <-; lia].
  intros <- _. rewrite Nat2Z.id.
  destruct (find_first_Some _ _ _ _ E) as (k & -> & Hk & Hs & Hmin).
  rewrite skipn_skipn in Hs. rewrite length_skipn in Hk.
  assert (Hlen : (Z.to_nat start + k <= length s)%nat).
  { destruct (Nat.le_gt_cases (Z.to_nat start) (length s)); [lia|].
    rewrite skipn_all2 in Hs by lia. apply starts_with_nil in Hs. contradiction. }
  split; [|split].
  - apply occurs_at_starts_with. split; [exact Hlen|].
    now rewrite Nat.add_comm.
  - lia.
  - intros p Hp Hocc. apply occurs_at_starts_with in Hocc as [_ Hocc].
    specialize (Hmin (p - Z.to_nat start)%nat ltac:(lia)).
    rewrite skipn_skipn in Hmin.
    replace (p - Z.to_nat start + Z.to_nat start)%nat with p in Hmin by lia.
    congruence.
Qed.

(** A failed search: no occurrence at or after its start. *)
Lemma StringFind_none s m start p :
  StringFind s m start < 0 -> (Z.to_nat start <= p)%nat -> ~ occurs_at m s p.
Proof.
  unfold StringFind.
  destruct (find_first _ _ _) as [j|] eqn:E; [lia|].
  intros _ Hp Hocc. apply occurs_at_starts_with in Hocc as [_ Hocc].
  pose proof (find_first_None _ _ _ E (p - Z.to_nat start)%nat) as H.
  rewrite skipn_skipn in H.
  replace (p - Z.to_nat start + Z.to_nat start)%nat with p in H by lia.
  congruence.
Qed.

(** The first occurrence at or after the start is what the search returns. *)
Lemma StringFind_intro s m start p :
  0 <= start -> (Z.to_nat start <= p)%nat -> occurs_at m s p ->
  (forall q, (Z.to_nat start <= q < p)%nat -> ~ occurs_at m s q) ->
  StringFind s m start = Z.of_nat p.
Proof.
  intros Hst Hp Hocc Hmin.
  apply occurs_at_starts_with in Hocc as [Hlen Hocc].
  unfold StringFind.
  rewrite (find_first_intro m _ _ (p - Z.to_nat start)%nat).
  - f_equal. lia.
  - rewrite length_skipn. lia.
  - rewrite skipn_skipn. now replace (p - Z.to_nat start + Z.to_nat start)%nat with p by lia.
  - intros k' Hk'. rewrite skipn_skipn.
    destruct (starts_with m (skipn (k' + Z.to_nat start) s)) eqn:E; [|reflexivity].
    exfalso. apply (Hmin (k' + Z.to_nat start)%nat); [lia|].
    apply occurs_at_starts_with. split; [lia | exact E].
Qed.

End StringFacts.

(** ** The scanner, field by field *)

Section PositionFacts.

Implicit Types (json : mstring) (f : Field) (e s : Z).

Lemma key_nonempty f : key f <> [].
Proof. destruct f; discriminate. Qed.

Lemma key_length_pos f : 0 < Z.of_nat (length (key f)).
Proof. destruct f; cbv [key]; simpl; lia. Qed.

(** The first colon at or after an occurrence of a key is the key's own
    last character. *)
Lemma key_colon json f (p : nat) :
  occurs_at (key f) json p ->
  StringFind json (str ":") (Z.of_nat p) = Z.of_nat p + Z.of_nat (length (key f)) - 1.
Proof.
  intros (a & b & -> & <-). unfold StringFind.
  rewrite Nat2Z.id, skipn_app, skipn_all, Nat.sub_diag. simpl skipn.
  rewrite find_first_shift.
  destruct f; cbv [key field_name str String.list_ascii_of_string]; simpl; lia.
Qed.

Lemma value_start_Some json f e s :
  value_start json f e = Some s ->
  exists p : nat, StringFind json (key f) e = Z.of_nat p /\
                  occurs_at (key f) json p /\
                  s = Z.of_nat p + Z.of_nat (length (key f)).
Proof.
  unfold value_start.
  destruct (StringFind json (key f) e <? 0) eqn:Hpos; [discriminate|].
  apply Z.ltb_ge in Hpos.
  destruct (StringFind_found json (key f) e _ (key_nonempty f) eq_refl Hpos) as (Hocc & _ & _).
  remember (StringFind json (key f) e) as pos.
  rewrite <- (Z2Nat.id pos Hpos), (key_colon _ _ _ Hocc).
  generalize (Z.of_nat (length (key f))); intros n.
  destruct (_ <=? 0); [discriminate|]. intros [= <-].
  exists (Z.to_nat pos). repeat split; [exact Hocc | lia].
Qed.

Lemma value_start_None json f e :
  value_start json f e = None <-> StringFind json (key f) e < 0.
Proof.
  unfold value_start.
  destruct (StringFind json (key f) e <? 0) eqn:Hpos.
  - apply Z.ltb_lt in Hpos. tauto.
  - apply Z.ltb_ge in Hpos.
    destruct (StringFind_found json (key f) e _ (key_nonempty f) eq_refl Hpos) as (Hocc & _ & _).
    remember (StringFind json (key f) e) as pos.
    rewrite <- (Z2Nat.id pos Hpos) at 1. rewrite (key_colon _ _ _ Hocc).
    pose proof (key_length_pos f).
    destruct (_ <=? 0) eqn:E; [apply Z.leb_le in E; lia|].
    split; [discriminate | lia].
Qed.

Lemma value_end_Some json s e :
  value_end json s = Some e ->
  s < e /\ (occurs_at (str ",") json (Z.to_nat e) \/
            occurs_at (str "}") json (Z.to_nat e)).
Proof.
  unfold value_end.
  destruct (StringFind json (str ",") s <? 0) eqn:Hc.
  - destruct ((StringFind json (str "}") s <? 0) || _) eqn:G; [discriminate|].
    apply orb_false_iff in G as [G1 G2]. apply Z.ltb_ge in G1. apply Z.leb_gt in G2.
    intros [= <-]. split; [exact G2|]. right.
    now apply (StringFind_found json (str "}") s).
  - destruct ((StringFind json (str ",") s <? 0) || _) eqn:G; [discriminate|].
    apply orb_false_iff in G as [G1 G2]. apply Z.ltb_ge in G1. apply Z.leb_gt in G2.
    intros [= <-]. split; [exact G2|]. left.
    now apply (StringFind_found json (str ",") s).
Qed.

Lemma read_is_buy_None json e :
  read_is_buy json e = None <-> value_start json FIsBuy e = None.
Proof.
  unfold read_is_buy. destruct (value_start json FIsBuy e); split; congruence.
Qed.

End PositionFacts.

Section ScannerFacts.

Variable double : Type.
Variable StringToDouble : mstring -> double.

Implicit Types (json : mstring) (f : Field) (e s : Z).

Lemma read_double_skip json f e :
  option_map snd (read_double StringToDouble json f e) = skip_double json f e.
Proof.
  unfold read_double, skip_double.
  destruct (value_start json f e); [|reflexivity].
  destruct (value_end json _); reflexivity.
Qed.

Lemma read_double_Some json f e v e' :
  read_double StringToDouble json f e = Some (v, e') -> skip_double json f e = Some e'.
Proof. intros H. rewrite <- read_double_skip, H. reflexivity. Qed.

Lemma read_double_None json f e :
  read_double StringToDouble json f e = None <-> skip_double json f e = None.
Proof.
  rewrite <- read_double_skip.
  destruct (read_double _ json f e) as [[? ?]|]; simpl; split; congruence.
Qed.

(** Splitting a run of the scanner at its stages. *)
Ltac split_stages :=
  repeat match goal with
  | |- context [read_symbol ?j ?e] =>
      destruct (read_symbol j e) as [[? ?]|] eqn:?; simpl; try congruence
  | |- context [read_double ?c ?j ?f ?e] =>
      let E := fresh "E" in
      destruct (read_double c j f e) as [[? ?]|] eqn:E;
      [apply read_double_Some in E | apply read_double_None in E];
      try rewrite E; simpl; try congruence
  end.

(** A stage that fails makes the whole scan fail. *)
Lemma stage_failure json start f e :
  search_from json start f = Some e -> stage_end json f e = None ->
  ParseSingleTrade StringToDouble json start = None.
Proof.
  unfold ParseSingleTrade, search_from, stage_end.
  destruct f; simpl.
  - intros [= <-]. destruct (read_symbol json start) as [[? ?]|]; [discriminate | reflexivity].
  - split_stages.
  - split_stages.
  - split_stages.
  - split_stages.
  - split_stages. intros [= <-] E'. apply read_is_buy_None in E'. now rewrite E'.
Qed.

(** A successful scan went through every stage. *)
Lemma stage_success json start sig f :
  ParseSingleTrade StringToDouble json start = Some sig ->
  exists e r, search_from json start f = Some e /\ stage_end json f e = Some r.
Proof.
  unfold ParseSingleTrade, search_from, stage_end.
  split_stages.
  destruct (read_is_buy json _) eqn:B; [|discriminate].
  intros _. unfold read_is_buy in B.
  destruct (value_start json FIsBuy _) eqn:V; [|discriminate].
  destruct f; simpl; do 2 eexists; (split; [reflexivity|]);
    first [ eassumption
          | match goal with
            | H : read_symbol _ _ = _ |- _ => rewrite H; reflexivity
            end ].
Qed.

End ScannerFacts.

(** ** The cycle *)

Section CycleFacts.

Variable double : Type.
Variable StringToDouble : mstring -> double.
Variable NormalizeDouble : double -> Z -> double.

Implicit Types (I : Inputs) (T : Terminal double) (sig : TradeSignal double).

Lemma submissions_of_cycle I T :
  submissions (OnTimer StringToDouble NormalizeDouble I T) =
  match parsed_signal StringToDouble T with
  | Some sig => [order_for NormalizeDouble I sig (SymbolInfoInteger T (symbol sig))]
  | None => []
  end.
Proof.
  unfold OnTimer, parsed_signal, scan_start, payload_of, order_for, submissions.
  simpl filter.
  destruct (negb (web_status T =? 200)); [reflexivity|].
  destruct (StringFind _ _ 0 <? 0); [reflexivity|].
  destruct (ParseSingleTrade _ _ _) as [sig|]; [|reflexivity].
  simpl. destruct (isBuy sig); reflexivity.
Qed.

Lemma parsed_signal_Some T sig :
  web_status T = 200 -> 0 <= scan_start T ->
  ParseSingleTrade StringToDouble (payload_of T) (scan_start T) = Some sig ->
  parsed_signal StringToDouble T = Some sig.
Proof.
  intros Hs Hp Hsig. unfold parsed_signal.
  rewrite Hs. simpl.
  destruct (scan_start T <? 0) eqn:E; [apply Z.ltb_lt in E; lia | exact Hsig].
Qed.

Lemma parsed_signal_parse T :
  ParseSingleTrade StringToDouble (payload_of T) (scan_start T) = None -> parsed_signal StringToDouble T = None.
Proof.
  intros H. unfold parsed_signal.
  destruct (negb _); [reflexivity|]. destruct (_ <? 0); [reflexivity | exact H].
Qed.

(** C8. When the web request returns anything but 200 (a failed request
    returns -1), the cycle consists of that request alone, whatever bytes
    came back: nothing is scanned and no order is submitted. *)
Theorem transport_failure_aborts I T :
  web_status T <> 200 ->
  OnTimer StringToDouble NormalizeDouble I T = [CallWebRequest (str "GET") (SignalURL I) 2000] /\
  submissions (OnTimer StringToDouble NormalizeDouble I T) = [].
Proof.
  intros H. apply Z.eqb_neq in H.
  assert (E : OnTimer StringToDouble NormalizeDouble I T = [CallWebRequest (str "GET") (SignalURL I) 2000]).
  { unfold OnTimer. rewrite H. reflexivity. }
  split; [exact E | rewrite E; reflexivity].
Qed.

(** C9. For every signal a cycle parses, the one order submitted carries
    the parsed size and instrument unchanged and the three prices rounded
    to the digits the venue reported. *)
Theorem normalizer_frame I T sig :
  web_status T = 200 -> 0 <= scan_start T ->
  ParseSingleTrade StringToDouble (payload_of T) (scan_start T) = Some sig ->
  let digits := SymbolInfoInteger T (symbol sig) in
  submissions (OnTimer StringToDouble NormalizeDouble I T) =
  [ (if isBuy sig then CallBuy else CallSell)
      (lot sig) (symbol sig)
      (NormalizeDouble (entry sig) digits)
      (NormalizeDouble (sl sig) digits)
      (NormalizeDouble (tp sig) digits)
      (TradeComment I) ].
Proof.
  intros Hs Hp Hsig. cbv zeta.
  rewrite submissions_of_cycle, (parsed_signal_Some _ _ Hs Hp Hsig).
  reflexivity.
Qed.

(** C3, as the code has it.  The result of the precision lookup is not
    examined: for every parsed signal whose instrument the venue does not
    know, the prices are rounded to the 0 digits the lookup returned and
    one order is submitted. *)
Theorem unknown_instrument_still_submits I T sig :
  web_status T = 200 -> 0 <= scan_start T ->
  ParseSingleTrade StringToDouble (payload_of T) (scan_start T) = Some sig ->
  instrument_precision T (symbol sig) = None ->
  submissions (OnTimer StringToDouble NormalizeDouble I T) = [order_for NormalizeDouble I sig 0].
Proof.
  intros Hs Hp Hsig Hunknown.
  rewrite submissions_of_cycle, (parsed_signal_Some _ _ Hs Hp Hsig).
  unfold SymbolInfoInteger. rewrite Hunknown. reflexivity.
Qed.

(** C4, as the code has it.  A cycle attempts a submission exactly when the
    request returned 200, the payload has an opening brace and the scan
    from it succeeded; the size is not examined, and the order carries the
    parsed size whatever its sign. *)
Theorem submission_ignores_size I T :
  (submissions (OnTimer StringToDouble NormalizeDouble I T) <> [] <->
   web_status T = 200 /\ 0 <= scan_start T /\
   ParseSingleTrade StringToDouble (payload_of T) (scan_start T) <> None) /\
  (forall sig, parsed_signal StringToDouble T = Some sig ->
     exists name price sl tp comment,
       submissions (OnTimer StringToDouble NormalizeDouble I T) =
       [(if isBuy sig then CallBuy else CallSell) (lot sig) name price sl tp comment]).
Proof.
  rewrite submissions_of_cycle. split.
  - unfold parsed_signal.
    destruct (web_status T =? 200) eqn:Hs; simpl.
    + apply Z.eqb_eq in Hs.
      destruct (scan_start T <? 0) eqn:Hp.
      * apply Z.ltb_lt in Hp. split; [congruence | lia].
      * apply Z.ltb_ge in Hp.
        destruct (ParseSingleTrade _ _ _); split; try congruence; try discriminate.
        -- intros _. repeat split; [exact Hs | exact Hp | discriminate].
        -- intros (_ & _ & H). congruence.
    + apply Z.eqb_neq in Hs. split; [congruence | tauto].
  - intros sig ->. unfold order_for. do 5 eexists. reflexivity.
Qed.

End CycleFacts.

(** ** Required fields *)

Section PresentFields.

Implicit Types (json : mstring) (f : Field) (e s : Z).

Lemma read_symbol_present json e v r :
  read_symbol json e = Some (v, r) -> field_present json FSymbol.
Proof.
  unfold read_symbol.
  set (pos := StringFind json (key FSymbol) e).
  destruct (pos <? 0) eqn:Hpos; [discriminate|]. apply Z.ltb_ge in Hpos.
  set (s0 := StringFind json [dquote] (pos + 9)).
  destruct (s0 <? 0) eqn:Hs0; [discriminate|]. apply Z.ltb_ge in Hs0.
  set (e1 := StringFind json [dquote] (s0 + 1)).
  destruct ((e1 <? 0) || (e1 <=? s0 + 1)) eqn:G; [discriminate|].
  apply orb_false_iff in G as [G1 G2]. apply Z.ltb_ge in G1. apply Z.leb_gt in G2.
  intros _.
  destruct (StringFind_found json (key FSymbol) e pos (key_nonempty _) eq_refl Hpos) as (Hk & _ & _).
  destruct (StringFind_found json [dquote] (pos + 9) s0 ltac:(discriminate) eq_refl Hs0) as (Hq1 & Hle & _).
  destruct (StringFind_found json [dquote] (s0 + 1) e1 ltac:(discriminate) eq_refl G1) as (Hq2 & _ & _).
  exists (Z.to_nat pos). split; [exact Hk|].
  exists (Z.to_nat s0), (Z.to_nat e1). repeat split; [lia | lia | exact Hq1 | exact Hq2].
Qed.

Lemma skip_double_present json f e r :
  f <> FSymbol -> f <> FIsBuy ->
  skip_double json f e = Some r -> field_present json f.
Proof.
  intros Hf1 Hf2. unfold skip_double.
  destruct (value_start json f e) as [s|] eqn:Hs; [|discriminate].
  intros He.
  destruct (value_start_Some _ _ _ _ Hs) as (p & _ & Hocc & ->).
  destruct (value_end_Some _ _ _ He) as (Hlt & Hd).
  exists p. split; [exact Hocc|].
  assert (Hiso : exists q : nat, (p + length (key f) < q)%nat /\
                   (occurs_at (str ",") json q \/ occurs_at (str "}") json q)).
  { exists (Z.to_nat r). split; [lia | exact Hd]. }
  destruct f; try contradiction; exact Hiso.
Qed.

Lemma stage_end_present json f e r :
  stage_end json f e = Some r -> field_present json f.
Proof.
  destruct f; simpl.
  - destruct (read_symbol json e) as [[v r']|] eqn:E; [|discriminate].
    intros _. exact (read_symbol_present _ _ _ _ E).
  - apply skip_double_present; discriminate.
  - apply skip_double_present; discriminate.
  - apply skip_double_present; discriminate.
  - apply skip_double_present; discriminate.
  - intros Hs. destruct (value_start_Some _ _ _ _ Hs) as (p & _ & Hocc & _).
    exists p. split; [exact Hocc | exact Logic.I].
Qed.

(** A key that the search does not find from position 0 is nowhere in the
    payload. *)
Lemma absent_key json f :
  StringFind json (key f) 0 < 0 -> ~ field_present json f.
Proof.
  intros H (p & Hocc & _).
  apply (StringFind_none json (key f) 0 p H); [simpl; lia | exact Hocc].
Qed.

End PresentFields.

Section RequiredFields.

Variable double : Type.
Variable StringToDouble : mstring -> double.
Variable NormalizeDouble : double -> Z -> double.

Implicit Types (json : mstring) (f : Field) (e s : Z).


(** C7. The key of each field is searched from the position where the
    previous field's value ended; when every occurrence of the key lies
    before that position, the scan fails. *)
Theorem out_of_order_fails json start f e :
  search_from json start f = Some e ->
  (forall p : nat, occurs_at (key f) json p -> Z.of_nat p < e) ->
  ParseSingleTrade StringToDouble json start = None.
Proof.
  intros Hfrom Hbefore.
  assert (Hnot : StringFind json (key f) e < 0).
  { destruct (StringFind_range json (key f) e) as [H|H]; [lia|].
    destruct (StringFind_found json (key f) e _ (key_nonempty f) eq_refl H) as (Hocc & Hle & _).
    specialize (Hbefore _ Hocc). lia. }
  apply (stage_failure _ _ json start f e Hfrom).
  pose proof (proj2 (value_start_None json f e) Hnot) as Hvs.
  destruct f; simpl; unfold skip_double; rewrite ?Hvs; try reflexivity.
  unfold read_symbol. apply Z.ltb_lt in Hnot. now rewrite Hnot.
Qed.

End RequiredFields.

(** ** The direction flag *)

Section TrimFacts.

Implicit Types (m s a b w : mstring).

Lemma contains_StringFind m s :
  m <> [] -> (0 <= StringFind s m 0 <-> contains m s).
Proof.
  intros Hm. split.
  - intros H. exists (Z.to_nat (StringFind s m 0)).
    now apply (StringFind_found s m 0).
  - intros (p & Hocc). destruct (StringFind_range s m 0) as [H|H]; [|exact H].
    exfalso. apply (StringFind_none s m 0 p); [lia | simpl; lia | exact Hocc].
Qed.

Lemma StringTrimLeft_split s : exists a, s = a ++ StringTrimLeft s.
Proof.
  induction s as [|c s (a & IH)]; simpl.
  - now exists [].
  - destruct (is_blank c).
    + exists (c :: a). simpl. now rewrite <- IH.
    + now exists [].
Qed.

Lemma StringTrimRight_split s : exists b, s = StringTrimRight s ++ b.
Proof.
  unfold StringTrimRight.
  destruct (StringTrimLeft_split (rev s)) as (a & Ha).
  exists (rev a). rewrite <- rev_app_distr, <- Ha. symmetry. apply rev_involutive.
Qed.

Lemma StringTrimLeft_keeps a c b :
  is_blank c = false ->
  StringTrimLeft (a ++ c :: b) = StringTrimLeft a ++ c :: b.
Proof.
  intros Hc. induction a as [|x a IH]; simpl.
  - now rewrite Hc.
  - destruct (is_blank x); [exact IH | reflexivity].
Qed.

(** What both trims remove lies outside any occurrence of a text that
    starts and ends with a character they do not cut. *)
Lemma contains_trimmed m w c m' c' m'' :
  m = c :: m' -> rev m = c' :: m'' ->
  is_blank c = false -> is_blank c' = false ->
  (contains m (StringTrimRight (StringTrimLeft w)) <-> contains m w).
Proof.
  intros Hm Hrev Hc Hc'. split.
  - intros (p & a & b & Hw & _).
    destruct (StringTrimLeft_split w) as (x & Hx).
    destruct (StringTrimRight_split (StringTrimLeft w)) as (y & Hy).
    exists (length (x ++ a)), (x ++ a), (b ++ y). split; [|reflexivity].
    rewrite Hx, Hy, Hw. now rewrite <- !app_assoc.
  - intros (p & a & b & -> & _). subst m.
    exists (length (StringTrimLeft a)), (StringTrimLeft a), (rev (StringTrimLeft (rev b))).
    split; [|reflexivity].
    unfold StringTrimRight. simpl app.
    rewrite (StringTrimLeft_keeps a c (m' ++ b) Hc).
    change (c :: m' ++ b) with ((c :: m') ++ b).
    rewrite !rev_app_distr, Hrev, <- app_assoc. simpl app.
    rewrite (StringTrimLeft_keeps (rev b) c' _ Hc').
    rewrite rev_app_distr.
    change (c' :: m'' ++ rev (StringTrimLeft a))
      with ((c' :: m'') ++ rev (StringTrimLeft a)).
    rewrite <- Hrev, rev_app_distr, !rev_involutive, <- app_assoc. reflexivity.
Qed.

Lemma contains_true_trimmed w :
  contains (str "true") (StringTrimRight (StringTrimLeft w)) <->
  contains (str "true") w.
Proof.
  apply (contains_trimmed _ w "t"%char (str "rue") "e"%char (str "urt"));
    reflexivity.
Qed.

(** An occurrence inside the first [n] characters ends within them. *)
Lemma occurs_in_window m s (n : Z) (p : nat) :
  0 <= n -> occurs_at m (StringSubstr s 0 n) p ->
  occurs_at m s p /\ Z.of_nat p + Z.of_nat (length m) <= n.
Proof.
  intros Hn (a & b & Hw & Hp). unfold StringSubstr in Hw.
  destruct (n <? 0) eqn:E; [apply Z.ltb_lt in E; lia|]. simpl in Hw.
  split.
  - exists a, (b ++ skipn (Z.to_nat n) s). split; [|exact Hp].
    rewrite <- (firstn_skipn (Z.to_nat n) s) at 1. rewrite Hw.
    now rewrite <- !app_assoc.
  - assert (Hlen : (length (firstn (Z.to_nat n) s) <= Z.to_nat n)%nat)
      by apply firstn_le_length.
    rewrite Hw, !length_app in Hlen. lia.
Qed.

Lemma StringSubstr_rest s (k n : Z) :
  StringSubstr s k n = StringSubstr (StringSubstr s k (-1)) 0 n.
Proof. reflexivity. Qed.

End TrimFacts.

Section DirectionFacts.

Variable double : Type.
Variable StringToDouble : mstring -> double.

Implicit Types (json : mstring) (e s : Z) (sig : TradeSignal double).

Lemma read_is_buy_found json e :
  0 <= StringFind json (key FIsBuy) e ->
  read_is_buy json e =
  Some (0 <=? StringFind (direction_window json (StringFind json (key FIsBuy) e + 9))
                         (str "true") 0).
Proof.
  intros Hpos. unfold read_is_buy.
  destruct (value_start json FIsBuy e) as [s|] eqn:Hs.
  - destruct (value_start_Some _ _ _ _ Hs) as (p & Hp & _ & ->).
    rewrite Hp. reflexivity.
  - apply value_start_None in Hs. lia.
Qed.

Lemma parse_direction json start sig e :
  ParseSingleTrade StringToDouble json start = Some sig ->
  search_from json start FIsBuy = Some e ->
  read_is_buy json e = Some (isBuy sig).
Proof.
  unfold ParseSingleTrade, search_from.
  destruct (read_symbol json start) as [[v0 e0]|]; simpl; [|discriminate].
  destruct (read_double _ json FEntry e0) as [[v1 e1]|] eqn:E1; [|discriminate].
  destruct (read_double _ json FSl e1) as [[v2 e2]|] eqn:E2; [|discriminate].
  destruct (read_double _ json FTp e2) as [[v3 e3]|] eqn:E3; [|discriminate].
  destruct (read_double _ json FLot e3) as [[v4 e4]|] eqn:E4; [|discriminate].
  rewrite (read_double_Some _ _ _ _ _ _ _ E1). simpl.
  rewrite (read_double_Some _ _ _ _ _ _ _ E2). simpl.
  rewrite (read_double_Some _ _ _ _ _ _ _ E3). simpl.
  rewrite (read_double_Some _ _ _ _ _ _ _ E4). simpl.
  destruct (read_is_buy json e4) as [b|] eqn:B; [|discriminate].
  intros [= <-] [= <-]. exact B.
Qed.

Lemma skip_double_read json f e e' :
  skip_double json f e = Some e' ->
  exists v, read_double StringToDouble json f e = Some (v, e').
Proof.
  rewrite <- (read_double_skip _ StringToDouble).
  destruct (read_double _ json f e) as [[v r]|]; simpl; [|discriminate].
  intros [= <-]. now exists v.
Qed.

Lemma parse_completes json start e b :
  search_from json start FIsBuy = Some e ->
  read_is_buy json e = Some b ->
  exists sig, ParseSingleTrade StringToDouble json start = Some sig /\ isBuy sig = b.
Proof.
  unfold ParseSingleTrade, search_from.
  destruct (read_symbol json start) as [[v0 e0]|]; simpl; [|discriminate].
  destruct (skip_double json FEntry e0) as [e1|] eqn:E1; simpl; [|discriminate].
  destruct (skip_double json FSl e1) as [e2|] eqn:E2; simpl; [|discriminate].
  destruct (skip_double json FTp e2) as [e3|] eqn:E3; simpl; [|discriminate].
  destruct (skip_double json FLot e3) as [e4|] eqn:E4; simpl; [|discriminate].
  intros [= <-] B.
  destruct (skip_double_read _ _ _ _ E1) as (v1 & ->).
  destruct (skip_double_read _ _ _ _ E2) as (v2 & ->).
  destruct (skip_double_read _ _ _ _ E3) as (v3 & ->).
  destruct (skip_double_read _ _ _ _ E4) as (v4 & ->).
  rewrite B. eexists. split; reflexivity.
Qed.

(** C1, as the code has it.  Once the five fields before it are read, the
    direction flag decides as follows: without its key after the size the
    scan fails; with the key, the scan succeeds and the direction is buy
    exactly when the five characters after the key's colon contain the
    lowercase text true, and sell for anything else in them. *)
Theorem direction_rule json start e :
  search_from json start FIsBuy = Some e ->
  let pos := StringFind json (key FIsBuy) e in
  (pos < 0 -> ParseSingleTrade StringToDouble json start = None) /\
  (0 <= pos ->
   exists sig, ParseSingleTrade StringToDouble json start = Some sig /\
     (isBuy sig = true <-> contains (str "true") (StringSubstr json (pos + 9) 5)) /\
     (isBuy sig = false <-> ~ contains (str "true") (StringSubstr json (pos + 9) 5))).
Proof.
  intros Hfrom pos. split.
  - intros Hneg. apply (stage_failure _ _ json start FIsBuy e Hfrom).
    simpl. now apply value_start_None.
  - intros Hpos.
    destruct (parse_completes json start e _ Hfrom (read_is_buy_found json e Hpos))
      as (sig & Hsig & Hb).
    exists sig. split; [exact Hsig|].
    fold pos in Hb. unfold direction_window in Hb.
    assert (Hiff : isBuy sig = true <->
                   contains (str "true") (StringSubstr json (pos + 9) 5)).
    { rewrite Hb, Z.leb_le, contains_StringFind by discriminate.
      apply contains_true_trimmed. }
    split; [exact Hiff|].
    rewrite <- Hiff. destruct (isBuy sig); split; congruence.
Qed.

(** C10. The direction is decided on the five characters that follow the
    colon of the direction key, trimmed; so when the first lowercase true
    after that colon starts two or more characters past it, the direction
    is sell. *)
Theorem direction_five_characters json start sig e :
  ParseSingleTrade StringToDouble json start = Some sig ->
  search_from json start FIsBuy = Some e ->
  let s := StringFind json (key FIsBuy) e + 9 in
  9 <= s /\
  StringFind json (str ":") (s - 9) = s - 1 /\
  isBuy sig =
    (0 <=? StringFind (StringTrimRight (StringTrimLeft (StringSubstr json s 5)))
                      (str "true") 0) /\
  (2 <= StringFind (StringSubstr json s (-1)) (str "true") 0 -> isBuy sig = false).
Proof.
  intros Hsig Hfrom s.
  pose proof (parse_direction _ _ _ _ Hsig Hfrom) as Hb.
  assert (Hpos : 0 <= StringFind json (key FIsBuy) e).
  { destruct (StringFind_range json (key FIsBuy) e) as [H|H]; [|exact H].
    assert (Hn : read_is_buy json e = None)
      by (apply read_is_buy_None, value_start_None; lia).
    congruence. }
  rewrite (read_is_buy_found json e Hpos) in Hb. injection Hb as Hb.
  fold s in Hb. unfold direction_window in Hb.
  split; [subst s; lia|]. split; [|split; [now symmetry|]].
  - destruct (StringFind_found json (key FIsBuy) e _ (key_nonempty _) eq_refl Hpos)
      as (Hocc & _ & _).
    pose proof (key_colon json FIsBuy _ Hocc) as Hc.
    rewrite Z2Nat.id in Hc by exact Hpos.
    subst s. replace (_ + 9 - 9) with (StringFind json (key FIsBuy) e) by lia.
    rewrite Hc. simpl. lia.
  - intros Hfar. destruct (isBuy sig) eqn:B; [|reflexivity]. exfalso.
    apply Z.leb_le in Hb.
    apply contains_StringFind in Hb; [|discriminate].
    apply (proj1 (contains_true_trimmed _)) in Hb. destruct Hb as (p & Hocc).
    rewrite StringSubstr_rest in Hocc.
    apply occurs_in_window in Hocc as (Hocc & Hlen); [|lia].
    change (Z.of_nat (length (str "true"))) with 4 in Hlen.
    assert (Hm : str "true" <> []) by discriminate.
    destruct (StringFind_found (StringSubstr json s (-1)) (str "true") 0 _ Hm eq_refl)
      as (_ & _ & Hmin); [lia|].
    apply (Hmin p); [change (Z.to_nat 0) with 0%nat; lia | exact Hocc].
Qed.

End DirectionFacts.

(** ** Scanning a built payload *)

Section PayloadFacts.

Implicit Types (a b m v rest pre : mstring) (f : Field).

Lemma skipn_length_app a b : skipn (length a) (a ++ b) = b.
Proof. now rewrite skipn_app, skipn_all, Nat.sub_diag. Qed.

(** A search that starts at or after the end of a prefix is a search in
    what follows the prefix. *)
Lemma StringFind_app a b m (k : Z) :
  0 <= k ->
  StringFind (a ++ b) m (Z.of_nat (length a) + k) =
  match find_first m (skipn (Z.to_nat k) b) (Z.to_nat k) with
  | Some i => Z.of_nat (length a) + Z.of_nat i
  | None => -1
  end.
Proof.
  intros Hk. unfold StringFind.
  replace (Z.to_nat (Z.of_nat (length a) + k)) with (Z.to_nat k + length a)%nat by lia.
  rewrite <- skipn_skipn, skipn_length_app.
  rewrite find_first_shift, (find_first_shift m _ (Z.to_nat k)).
  destruct (find_first m _ 0); simpl; [lia | reflexivity].
Qed.

Lemma StringFind_app0 a b m :
  StringFind (a ++ b) m (Z.of_nat (length a)) =
  match find_first m b 0 with
  | Some i => Z.of_nat (length a) + Z.of_nat i
  | None => -1
  end.
Proof.
  rewrite <- (Z.add_0_r (Z.of_nat (length a))) at 1.
  now rewrite StringFind_app by lia.
Qed.

(** The first occurrence of a character after a text without it. *)
Lemma find_first_char (c : ascii) v rest (i : nat) :
  ~ In c v -> find_first [c] (v ++ c :: rest) i = Some (i + length v)%nat.
Proof.
  revert i; induction v as [|x v IH]; intros i Hc; simpl.
  - rewrite Ascii.eqb_refl. simpl. f_equal. lia.
  - destruct (Ascii.eqb c x) eqn:E.
    + apply Ascii.eqb_eq in E. exfalso. apply Hc. left. now symmetry.
    + simpl. rewrite IH by (intros H; apply Hc; now right). f_equal. lia.
Qed.

Lemma StringSubstr_at a v rest :
  StringSubstr (a ++ v ++ rest) (Z.of_nat (length a))
               (Z.of_nat (length (a ++ v)) - Z.of_nat (length a)) = v.
Proof.
  unfold StringSubstr. rewrite Nat2Z.id, skipn_length_app, length_app.
  destruct (_ <? 0) eqn:E; [apply Z.ltb_lt in E; lia|].
  replace (Z.to_nat _) with (length v) by lia.
  now rewrite firstn_app, firstn_all, Nat.sub_diag, firstn_O, app_nil_r.
Qed.

Lemma value_start_at pre j f rest :
  gap j ->
  value_start (pre ++ j ++ key f ++ rest) f (Z.of_nat (length pre)) =
  Some (Z.of_nat (length (pre ++ j ++ key f))).
Proof.
  intros Hj. unfold value_start.
  assert (Hpos : StringFind (pre ++ j ++ key f ++ rest) (key f) (Z.of_nat (length pre))
                 = Z.of_nat (length (pre ++ j))).
  { rewrite StringFind_app0, length_app.
    destruct Hj as [-> | ->]; destruct f;
      cbv [key field_name str String.list_ascii_of_string]; simpl; lia. }
  rewrite Hpos.
  destruct (_ <? 0) eqn:E; [apply Z.ltb_lt in E; lia|].
  rewrite (key_colon _ f).
  - rewrite (app_assoc pre j), !length_app.
    pose proof (key_length_pos f).
    destruct (_ <=? 0) eqn:E'; [apply Z.leb_le in E'; lia|]. f_equal. lia.
  - exists (pre ++ j), rest. split; [now rewrite <- app_assoc | reflexivity].
Qed.

Lemma value_end_at a v rest :
  ~ In ","%char v -> v <> [] ->
  value_end (a ++ v ++ str "," ++ rest) (Z.of_nat (length a)) =
  Some (Z.of_nat (length (a ++ v))).
Proof.
  intros Hc Hv. unfold value_end.
  change (str "," ++ rest) with (","%char :: rest).
  change (str ",") with [","%char].
  rewrite StringFind_app0, find_first_char by exact Hc.
  rewrite length_app. cbv zeta.
  assert (0 < length v)%nat by (destruct v; [contradiction | simpl; lia]).
  set (e := Z.of_nat (length a) + Z.of_nat (0 + length v)).
  assert (E : (e <? 0) = false) by (apply Z.ltb_ge; subst e; lia).
  assert (G : (e <=? Z.of_nat (length a)) = false) by (apply Z.leb_gt; subst e; lia).
  rewrite E. cbn iota. rewrite E, G. cbn [orb]. f_equal. subst e. lia.
Qed.

End PayloadFacts.

Section RoundTrip.

Variable double : Type.
Variable StringToDouble : mstring -> double.
Variable fmt : double -> mstring.

Implicit Types (a v rest pre name : mstring) (f : Field).

Lemma read_double_at pre j f v rest :
  gap j -> ~ In ","%char v -> v <> [] ->
  read_double StringToDouble (pre ++ j ++ key f ++ v ++ str "," ++ rest) f
              (Z.of_nat (length pre)) =
  Some (StringToDouble (StringTrimRight (StringTrimLeft v)),
        Z.of_nat (length (pre ++ j ++ key f ++ v))).
Proof.
  intros Hj Hc Hv. unfold read_double.
  rewrite (value_start_at pre j f _ Hj).
  set (a := pre ++ j ++ key f).
  replace (pre ++ j ++ key f ++ v ++ str "," ++ rest)
    with (a ++ v ++ str "," ++ rest)
    by (subst a; now rewrite <- !app_assoc).
  rewrite (value_end_at a v rest Hc Hv), StringSubstr_at.
  do 3 f_equal. subst a. now rewrite <- !app_assoc.
Qed.

Lemma read_symbol_at name rest :
  ~ In dquote name -> name <> [] ->
  read_symbol (str "{" ++ key FSymbol ++ dquote :: name ++ dquote :: rest) 0 =
  Some (name, Z.of_nat (length (str "{" ++ key FSymbol ++ dquote :: name))).
Proof.
  intros Hq Hn. unfold read_symbol.
  set (a := str "{" ++ key FSymbol ++ [dquote]).
  replace (str "{" ++ key FSymbol ++ dquote :: name ++ dquote :: rest)
    with (a ++ name ++ dquote :: rest) by reflexivity.
  assert (Hpos : StringFind (a ++ name ++ dquote :: rest) (key FSymbol) 0 = 1)
    by reflexivity.
  assert (Hs : StringFind (a ++ name ++ dquote :: rest) [dquote] (1 + 9) = 10)
    by reflexivity.
  rewrite Hpos. cbn [Z.ltb Z.compare]. rewrite Hs. cbn [Z.ltb Z.compare].
  change (10 + 1) with (Z.of_nat (length a)).
  rewrite StringFind_app0, find_first_char by exact Hq.
  assert (0 < length name)%nat by (destruct name; [contradiction | simpl; lia]).
  set (e := Z.of_nat (length a) + Z.of_nat (0 + length name)).
  assert (E : (e <? 0) = false) by (apply Z.ltb_ge; subst e; lia).
  assert (G : (e <=? Z.of_nat (length a)) = false) by (apply Z.leb_gt; subst e; lia).
  rewrite E, G. cbn [orb].
  replace e with (Z.of_nat (length (a ++ name))) by (subst e; rewrite length_app; lia).
  change (dquote :: rest) with ([dquote] ++ rest).
  rewrite StringSubstr_at. reflexivity.
Qed.

Lemma read_is_buy_at pre (b : bool) :
  read_is_buy (pre ++ str "," ++ key FIsBuy ++ direction_text b ++ str "}")
              (Z.of_nat (length pre)) = Some b.
Proof.
  unfold read_is_buy.
  rewrite (value_start_at pre (str ",") FIsBuy _ (or_introl eq_refl)).
  unfold direction_window, StringSubstr.
  rewrite Nat2Z.id.
  replace (pre ++ str "," ++ key FIsBuy ++ direction_text b ++ str "}")
    with ((pre ++ str "," ++ key FIsBuy) ++ direction_text b ++ str "}")
    by now rewrite <- !app_assoc.
  rewrite skipn_length_app. destruct b; reflexivity.
Qed.


End RoundTrip.

(** ** Numeric fields *)

Section Conversion.

Variable double : Type.
Variable StringToDouble : mstring -> double.

Lemma scan_then_convert json start :
  ParseSingleTrade StringToDouble json start =
  option_map (convert StringToDouble) (ParseSingleTrade (fun text => text) json start).
Proof.
  unfold ParseSingleTrade, read_double.
  destruct (read_symbol json start) as [[v e]|]; [|reflexivity].
  repeat match goal with
  | |- context [value_start ?j ?f ?e] =>
      destruct (value_start j f e); [|reflexivity]
  | |- context [value_end ?j ?s] =>
      destruct (value_end j s); [|reflexivity]
  end.
  destruct (read_is_buy json _); reflexivity.
Qed.

Lemma empty_value_end json s :
  0 <= s -> occurs_at (str ",") json (Z.to_nat s) -> value_end json s = None.
Proof.
  intros Hs Hocc. unfold value_end.
  assert (E : StringFind json (str ",") s = s).
  { rewrite (StringFind_intro json (str ",") s (Z.to_nat s)); [lia | exact Hs | lia | exact Hocc |].
    intros q Hq. lia. }
  rewrite E.
  destruct (s <? 0) eqn:H0; [apply Z.ltb_lt in H0; lia|].
  rewrite H0, Z.leb_refl. reflexivity.
Qed.

Lemma read_double_fixed_by_delimiter json f e s :
  value_start json f e = Some s ->
  read_double StringToDouble json f e =
  let c := StringFind json (str ",") s in
  let e' := if c <? 0 then StringFind json (str "}") s else c in
  if (e' <? 0) || (e' <=? s) then None
  else Some (StringToDouble
               (StringTrimRight (StringTrimLeft (StringSubstr json s (e' - s)))),
             e').
Proof.
  intros Hs. unfold read_double, value_end. rewrite Hs. cbv zeta.
  destruct (_ || _); reflexivity.
Qed.

Lemma scan_succeeds_on_positions json start :
  ParseSingleTrade StringToDouble json start <> None <->
  exists e, search_from json start FIsBuy = Some e /\
            0 <= StringFind json (key FIsBuy) e.
Proof.
  split.
  - intros Hsome.
    destruct (ParseSingleTrade StringToDouble json start) as [sig|] eqn:E; [|congruence].
    destruct (stage_success _ StringToDouble json start sig FIsBuy E) as (e & r & He & Hr).
    exists e. split; [exact He|]. cbn [stage_end] in Hr.
    destruct (StringFind_range json (key FIsBuy) e) as [H|H]; [|exact H].
    assert (Hn : value_start json FIsBuy e = None) by (apply value_start_None; lia).
    congruence.
  - intros (e & He & Hpos).
    destruct (parse_completes _ StringToDouble json start e _ He
                (read_is_buy_found json e Hpos)) as (sig & -> & _).
    discriminate.
Qed.

Lemma read_double_at_empty pre j f rest :
  gap j ->
  read_double StringToDouble (pre ++ j ++ key f ++ [] ++ str "," ++ rest) f
              (Z.of_nat (length pre)) = None.
Proof.
  intros Hj. unfold read_double.
  change (pre ++ j ++ key f ++ [] ++ str "," ++ rest)
    with (pre ++ j ++ key f ++ str "," ++ rest).
  rewrite (value_start_at pre j f _ Hj).
  rewrite empty_value_end; [reflexivity | lia |].
  rewrite Nat2Z.id. exists (pre ++ j ++ key f), rest.
  split; [now rewrite <- !app_assoc | reflexivity].
Qed.

(** The stages of the scan of a built payload, up to the first one not yet
    read. *)
Ltac built_setup name te ts tt tl b :=
  unfold build_payload;
  set (p1 := str "{" ++ key FSymbol ++ dquote :: name);
  set (p2 := p1 ++ (dquote :: str ",") ++ key FEntry ++ te);
  set (p3 := p2 ++ str "," ++ key FSl ++ ts);
  set (p4 := p3 ++ str "," ++ key FTp ++ tt);
  set (p5 := p4 ++ str "," ++ key FLot ++ tl);
  set (t5 := str "," ++ key FIsBuy ++ direction_text b ++ str "}");
  set (t4 := str "," ++ key FLot ++ tl ++ t5);
  set (t3 := str "," ++ key FTp ++ tt ++ t4);
  set (json := str "{" ++ _);
  assert (J1 : json = p1 ++ (dquote :: str ",") ++ key FEntry ++ te ++ str "," ++
                      (key FSl ++ ts ++ t3))
    by (subst json p1 t3 t4 t5; rewrite <- !app_assoc; reflexivity);
  assert (J2 : json = p2 ++ str "," ++ key FSl ++ ts ++ str "," ++
                      (key FTp ++ tt ++ t4))
    by (rewrite J1; subst p2; rewrite <- !app_assoc; reflexivity);
  assert (J3 : json = p3 ++ str "," ++ key FTp ++ tt ++ str "," ++
                      (key FLot ++ tl ++ t5))
    by (rewrite J2; subst p3; rewrite <- !app_assoc; reflexivity);
  assert (J4 : json = p4 ++ str "," ++ key FLot ++ tl ++ str "," ++
                      (key FIsBuy ++ direction_text b ++ str "}"))
    by (rewrite J3; subst p4; rewrite <- !app_assoc; reflexivity);
  assert (J5 : json = p5 ++ str "," ++ key FIsBuy ++ direction_text b ++ str "}")
    by (rewrite J4; subst p5; rewrite <- !app_assoc; reflexivity);
  assert (R0 : read_symbol json 0 = Some (name, Z.of_nat (length p1)))
    by (subst json p1; apply read_symbol_at; assumption);
  unfold ParseSingleTrade; rewrite R0.

Implicit Types (name te ts tt tl : mstring) (b : bool).

(** Any four texts without a comma and with at least one character are
    read, whatever they hold. *)
Lemma scan_any_texts name te ts tt tl b :
  name <> [] -> ~ In dquote name ->
  ~ In ","%char te -> ~ In ","%char ts -> ~ In ","%char tt -> ~ In ","%char tl ->
  te <> [] -> ts <> [] -> tt <> [] -> tl <> [] ->
  ParseSingleTrade StringToDouble
    (build_payload name te ts tt tl (direction_text b)) 0 =
  Some (mkSignal name
          (StringToDouble (StringTrimRight (StringTrimLeft te)))
          (StringToDouble (StringTrimRight (StringTrimLeft ts)))
          (StringToDouble (StringTrimRight (StringTrimLeft tt)))
          (StringToDouble (StringTrimRight (StringTrimLeft tl))) b).
Proof.
  intros Hn Hq C1 C2 C3 C4 N1 N2 N3 N4.
  built_setup name te ts tt tl b.
  rewrite J1 at 1.
  rewrite (read_double_at _ StringToDouble p1 _ FEntry te _ (or_intror eq_refl) C1 N1).
  fold p2. rewrite J2 at 1.
  rewrite (read_double_at _ StringToDouble p2 _ FSl ts _ (or_introl eq_refl) C2 N2).
  fold p3. rewrite J3 at 1.
  rewrite (read_double_at _ StringToDouble p3 _ FTp tt _ (or_introl eq_refl) C3 N3).
  fold p4. rewrite J4 at 1.
  rewrite (read_double_at _ StringToDouble p4 _ FLot tl _ (or_introl eq_refl) C4 N4).
  fold p5. rewrite J5 at 1.
  rewrite read_is_buy_at. reflexivity.
Qed.

Lemma scan_empty_entry name ts tt tl b :
  name <> [] -> ~ In dquote name ->
  ParseSingleTrade StringToDouble
    (build_payload name [] ts tt tl (direction_text b)) 0 = None.
Proof.
  intros Hn Hq. built_setup name (@nil ascii) ts tt tl b.
  rewrite J1 at 1.
  rewrite (read_double_at_empty p1 _ FEntry _ (or_intror eq_refl)). reflexivity.
Qed.

Lemma scan_empty_sl name te tt tl b :
  name <> [] -> ~ In dquote name -> ~ In ","%char te -> te <> [] ->
  ParseSingleTrade StringToDouble
    (build_payload name te [] tt tl (direction_text b)) 0 = None.
Proof.
  intros Hn Hq C1 N1. built_setup name te (@nil ascii) tt tl b.
  rewrite J1 at 1.
  rewrite (read_double_at _ StringToDouble p1 _ FEntry te _ (or_intror eq_refl) C1 N1).
  fold p2. rewrite J2 at 1.
  rewrite (read_double_at_empty p2 _ FSl _ (or_introl eq_refl)). reflexivity.
Qed.

Lemma scan_empty_tp name te ts tl b :
  name <> [] -> ~ In dquote name ->
  ~ In ","%char te -> te <> [] -> ~ In ","%char ts -> ts <> [] ->
  ParseSingleTrade StringToDouble
    (build_payload name te ts [] tl (direction_text b)) 0 = None.
Proof.
  intros Hn Hq C1 N1 C2 N2. built_setup name te ts (@nil ascii) tl b.
  rewrite J1 at 1.
  rewrite (read_double_at _ StringToDouble p1 _ FEntry te _ (or_intror eq_refl) C1 N1).
  fold p2. rewrite J2 at 1.
  rewrite (read_double_at _ StringToDouble p2 _ FSl ts _ (or_introl eq_refl) C2 N2).
  fold p3. rewrite J3 at 1.
  rewrite (read_double_at_empty p3 _ FTp _ (or_introl eq_refl)). reflexivity.
Qed.

Lemma scan_empty_lot name te ts tt b :
  name <> [] -> ~ In dquote name ->
  ~ In ","%char te -> te <> [] -> ~ In ","%char ts -> ts <> [] ->
  ~ In ","%char tt -> tt <> [] ->
  ParseSingleTrade StringToDouble
    (build_payload name te ts tt [] (direction_text b)) 0 = None.
Proof.
  intros Hn Hq C1 N1 C2 N2 C3 N3. built_setup name te ts tt (@nil ascii) b.
  rewrite J1 at 1.
  rewrite (read_double_at _ StringToDouble p1 _ FEntry te _ (or_intror eq_refl) C1 N1).
  fold p2. rewrite J2 at 1.
  rewrite (read_double_at _ StringToDouble p2 _ FSl ts _ (or_introl eq_refl) C2 N2).
  fold p3. rewrite J3 at 1.
  rewrite (read_double_at _ StringToDouble p3 _ FTp tt _ (or_introl eq_refl) C3 N3).
  fold p4. rewrite J4 at 1.
  rewrite (read_double_at_empty p4 _ FLot _ (or_introl eq_refl)). reflexivity.
Qed.

(** C2, as the code has it.  The text of a numeric field is never
    examined.  The conversion has no failure result, so the scan is the
    scan of the raw texts followed by their conversion.  Once the key of a
    numeric field is located, reading the field is decided by the position
    of the next comma (or, without one, the next closing brace) alone: it
    fails when there is none or when it sits right after the colon, and
    otherwise gives the conversion of the trimmed text before it, whatever
    that text is.  The whole scan succeeds exactly when the keys and
    delimiters are found in turn.  For a payload with the six fields in
    order and any four texts without a comma, the scan fails exactly when
    one of the texts has no character, and otherwise gives their
    conversions. *)
Theorem conversion_is_total json start :
  ParseSingleTrade StringToDouble json start =
    option_map (convert StringToDouble) (ParseSingleTrade (fun text => text) json start) /\
  (forall f e s,
     is_numeric f = true ->
     search_from json start f = Some e ->
     value_start json f e = Some s ->
     occurs_at (str ",") json (Z.to_nat s) ->
     ParseSingleTrade StringToDouble json start = None) /\
  (forall f e s,
     is_numeric f = true ->
     value_start json f e = Some s ->
     read_double StringToDouble json f e =
     let c := StringFind json (str ",") s in
     let e' := if c <? 0 then StringFind json (str "}") s else c in
     if (e' <? 0) || (e' <=? s) then None
     else Some (StringToDouble
                  (StringTrimRight (StringTrimLeft (StringSubstr json s (e' - s)))),
                e')) /\
  (ParseSingleTrade StringToDouble json start <> None <->
   exists e, search_from json start FIsBuy = Some e /\
             0 <= StringFind json (key FIsBuy) e) /\
  (forall name te ts tt tl b,
     name <> [] -> ~ In dquote name ->
     ~ In ","%char te -> ~ In ","%char ts -> ~ In ","%char tt -> ~ In ","%char tl ->
     (te <> [] -> ts <> [] -> tt <> [] -> tl <> [] ->
      ParseSingleTrade StringToDouble
        (build_payload name te ts tt tl (direction_text b)) 0 =
      Some (mkSignal name
              (StringToDouble (StringTrimRight (StringTrimLeft te)))
              (StringToDouble (StringTrimRight (StringTrimLeft ts)))
              (StringToDouble (StringTrimRight (StringTrimLeft tt)))
              (StringToDouble (StringTrimRight (StringTrimLeft tl))) b)) /\
     (te = [] \/ ts = [] \/ tt = [] \/ tl = [] ->
      ParseSingleTrade StringToDouble
        (build_payload name te ts tt tl (direction_text b)) 0 = None)).
Proof.
  split; [apply scan_then_convert|]. split; [|split; [|split]].
  - intros f e s Hnum Hfrom Hs Hocc.
    apply (stage_failure _ _ json start f e Hfrom).
    assert (Hskip : skip_double json f e = None).
    { unfold skip_double. rewrite Hs. apply empty_value_end; [|exact Hocc].
      destruct (value_start_Some _ _ _ _ Hs) as (p & _ & _ & ->). lia. }
    destruct f; try discriminate Hnum; exact Hskip.
  - intros f e s _ Hs. exact (read_double_fixed_by_delimiter json f e s Hs).
  - apply scan_succeeds_on_positions.
  - intros name te ts tt tl b Hn Hq C1 C2 C3 C4. split.
    + intros N1 N2 N3 N4. now apply scan_any_texts.
    + intros Hempty.
      destruct te as [|c1 te]; [now apply scan_empty_entry|].
      destruct ts as [|c2 ts]; [apply scan_empty_sl; (assumption || discriminate)|].
      destruct tt as [|c3 tt]; [apply scan_empty_tp; (assumption || discriminate)|].
      destruct tl as [|c4 tl]; [apply scan_empty_lot; (assumption || discriminate)|].
      destruct Hempty as [H|[H|[H|H]]]; discriminate H.
Qed.

End Conversion.

(** ** The expert on concrete payloads *)

Lemma occurrences_before (json m : mstring) (e : Z) :
  StringFind json m e < 0 ->
  forall p : nat, occurs_at m json p -> Z.of_nat p < e.
Proof.
  intros H p Hocc. destruct (Z_lt_le_dec (Z.of_nat p) e) as [Hlt|Hle]; [exact Hlt|].
  exfalso. apply (StringFind_none json m e p H); [lia | exact Hocc].
Qed.

Lemma occurs_at_check (m s : mstring) (p : nat) :
  (p <=? length s)%nat && starts_with m (skipn p s) = true -> occurs_at m s p.
Proof.
  intros H. apply andb_true_iff in H as [H1 H2].
  apply occurs_at_starts_with. split; [now apply Nat.leb_le | exact H2].
Qed.

Ltac not_in_text :=
  let H := fresh in
  simpl; intros H;
  repeat (destruct H as [H|H]; [discriminate H|]); exact H.

(** C1 fails on the code twice: a direction value that contains the
    lowercase true after two spaces is read as sell, and a payload with no
    direction field does not scan at all. *)
Lemma direction_claim_counterexample :
  (0 <= StringFind (spec_direction_text padded_payload) (str "true") 0 /\
   option_map isBuy (ParseSingleTrade Exact.StringToDouble padded_payload 0)
   = Some false) /\
  ParseSingleTrade Exact.StringToDouble no_direction_payload 0 = None.
Proof.
  split; [split|].
  - apply Z.leb_le. vm_compute. reflexivity.
  - vm_compute. reflexivity.
  - vm_compute. reflexivity.
Qed.

Lemma direction_rule_witness :
  search_from upper_payload 0 FIsBuy = Some 86 /\
  exists sig,
    ParseSingleTrade Exact.StringToDouble upper_payload 0 = Some sig /\
    (isBuy sig = true <->
     contains (str "true")
       (StringSubstr upper_payload (StringFind upper_payload (key FIsBuy) 86 + 9) 5)) /\
    (isBuy sig = false <->
     ~ contains (str "true")
       (StringSubstr upper_payload (StringFind upper_payload (key FIsBuy) 86 + 9) 5)).
Proof.
  assert (H : search_from upper_payload 0 FIsBuy = Some 86) by (vm_compute; reflexivity).
  assert (Hpos : 0 <= StringFind upper_payload (key FIsBuy) 86)
    by (apply Z.leb_le; vm_compute; reflexivity).
  split; [exact H|].
  exact (proj2 (direction_rule Q Exact.StringToDouble upper_payload 0 86 H) Hpos).
Defined.

(** C2 fails on the code: the entry text abc is isolated and converted,
    and the scan succeeds. *)
Lemma nonnumeric_counterexample :
  read_double (fun text => text) text_entry_payload FEntry 17 = Some (str "abc", 36) /\
  ParseSingleTrade Exact.StringToDouble text_entry_payload 0 =
  Some (mkSignal (str "EURUSD") (0 # 1) (6 # 5) (13 # 10) (1 # 10) true).
Proof. split; vm_compute; reflexivity. Qed.

Lemma conversion_is_total_witness :
  (is_numeric FEntry = true /\
   search_from empty_entry_payload 0 FEntry = Some 17 /\
   value_start empty_entry_payload FEntry 17 = Some 33 /\
   occurs_at (str ",") empty_entry_payload (Z.to_nat 33) /\
   ParseSingleTrade Exact.StringToDouble empty_entry_payload 0 = None) /\
  ParseSingleTrade Exact.StringToDouble text_entry_payload 0 =
    Some (mkSignal (str "EURUSD")
            (Exact.StringToDouble (StringTrimRight (StringTrimLeft (str "abc"))))
            (Exact.StringToDouble (StringTrimRight (StringTrimLeft (str "1.2"))))
            (Exact.StringToDouble (StringTrimRight (StringTrimLeft (str "1.3"))))
            (Exact.StringToDouble (StringTrimRight (StringTrimLeft (str "0.10"))))
            true) /\
  ParseSingleTrade Exact.StringToDouble
    (build_payload (str "EURUSD") (str "abc") [] (str "1.3") (str "0.10")
                   (direction_text true)) 0 = None.
Proof.
  assert (H1 : is_numeric FEntry = true) by reflexivity.
  assert (H2 : search_from empty_entry_payload 0 FEntry = Some 17)
    by (vm_compute; reflexivity).
  assert (H3 : value_start empty_entry_payload FEntry 17 = Some 33)
    by (vm_compute; reflexivity).
  assert (H4 : occurs_at (str ",") empty_entry_payload (Z.to_nat 33))
    by (apply occurs_at_check; vm_compute; reflexivity).
  assert (Hn : str "EURUSD" <> []) by discriminate.
  assert (Hq : ~ In dquote (str "EURUSD")) by not_in_text.
  assert (C1 : ~ In ","%char (str "abc")) by not_in_text.
  assert (C2 : ~ In ","%char (str "1.2")) by not_in_text.
  assert (C3 : ~ In ","%char (str "1.3")) by not_in_text.
  assert (C4 : ~ In ","%char (str "0.10")) by not_in_text.
  assert (C0 : ~ In ","%char (@nil ascii)) by not_in_text.
  assert (N1 : str "abc" <> []) by discriminate.
  assert (N2 : str "1.2" <> []) by discriminate.
  assert (N3 : str "1.3" <> []) by discriminate.
  assert (N4 : str "0.10" <> []) by discriminate.
  assert (E : str "abc" = [] \/ @nil ascii = [] \/ str "1.3" = [] \/ str "0.10" = [])
    by (right; left; reflexivity).
  pose proof (conversion_is_total Q Exact.StringToDouble empty_entry_payload 0)
    as (_ & Pempty & _ & _ & Pbuilt).
  split; [|split].
  - split; [exact H1|]. split; [exact H2|]. split; [exact H3|]. split; [exact H4|].
    exact (Pempty FEntry 17 33 H1 H2 H3 H4).
  - exact (proj1 (Pbuilt (str "EURUSD") (str "abc") (str "1.2") (str "1.3") (str "0.10")
                    true Hn Hq C1 C2 C3 C4) N1 N2 N3 N4).
  - exact (proj2 (Pbuilt (str "EURUSD") (str "abc") [] (str "1.3") (str "0.10")
                    true Hn Hq C1 C0 C3 C4) E).
Defined.

(** C3 fails on the code: the venue does not know the instrument, and the
    cycle still submits an order, its prices rounded to 0 digits. *)
Lemma unknown_instrument_counterexample :
  instrument_precision unknown_venue (str "EURUSD") = None /\
  parsed_signal Exact.StringToDouble unknown_venue = Some sample_signal /\
  submissions (OnTimer Exact.StringToDouble Exact.NormalizeDouble
                       default_inputs unknown_venue) =
  [CallBuy (1 # 10) (str "EURUSD") (1 # 1) (1 # 1) (1 # 1) (str "ML_EA")].
Proof. repeat split; vm_compute; reflexivity. Qed.

Lemma unknown_instrument_still_submits_witness :
  web_status unknown_venue = 200 /\
  0 <= scan_start unknown_venue /\
  ParseSingleTrade Exact.StringToDouble (payload_of unknown_venue)
                   (scan_start unknown_venue) = Some sample_signal /\
  instrument_precision unknown_venue (symbol sample_signal) = None /\
  submissions (OnTimer Exact.StringToDouble Exact.NormalizeDouble
                       default_inputs unknown_venue) =
  [order_for Exact.NormalizeDouble default_inputs sample_signal 0].
Proof.
  assert (H1 : web_status unknown_venue = 200) by reflexivity.
  assert (H2 : 0 <= scan_start unknown_venue)
    by (apply Z.leb_le; vm_compute; reflexivity).
  assert (H3 : ParseSingleTrade Exact.StringToDouble (payload_of unknown_venue)
                 (scan_start unknown_venue) = Some sample_signal)
    by (vm_compute; reflexivity).
  assert (H4 : instrument_precision unknown_venue (symbol sample_signal) = None)
    by reflexivity.
  split; [exact H1|]. split; [exact H2|]. split; [exact H3|]. split; [exact H4|].
  exact (unknown_instrument_still_submits Q Exact.StringToDouble Exact.NormalizeDouble
           default_inputs unknown_venue sample_signal H1 H2 H3 H4).
Defined.

(** C4 fails on the code: a size of -0.10 is submitted. *)
Lemma negative_size_counterexample :
  submissions (OnTimer Exact.StringToDouble Exact.NormalizeDouble
                       default_inputs negative_size_terminal) =
  [CallSell (-1 # 10) (str "EURUSD") (123 # 100) (6 # 5) (13 # 10) (str "ML_EA")] /\
  ~ (0 < -1 # 10)%Q.
Proof.
  split; [vm_compute; reflexivity|].
  intros H. vm_compute in H. discriminate H.
Qed.

Lemma submission_ignores_size_witness :
  parsed_signal Exact.StringToDouble negative_size_terminal = Some negative_size_signal /\
  exists name price sl tp comment,
    submissions (OnTimer Exact.StringToDouble Exact.NormalizeDouble
                         default_inputs negative_size_terminal) =
    [(if isBuy negative_size_signal then CallBuy else CallSell)
       (lot negative_size_signal) name price sl tp comment].
Proof.
  assert (H : parsed_signal Exact.StringToDouble negative_size_terminal
              = Some negative_size_signal) by (vm_compute; reflexivity).
  split; [exact H|].
  exact (proj2 (submission_ignores_size Q Exact.StringToDouble Exact.NormalizeDouble
                  default_inputs negative_size_terminal) negative_size_signal H).
Defined.



Lemma out_of_order_fails_witness :
  search_from swapped_payload 0 FEntry = Some 39 /\
  occurs_at (key FEntry) swapped_payload 1 /\
  (forall p : nat, occurs_at (key FEntry) swapped_payload p -> Z.of_nat p < 39) /\
  ParseSingleTrade Exact.StringToDouble swapped_payload 0 = None.
Proof.
  assert (H1 : search_from swapped_payload 0 FEntry = Some 39)
    by (vm_compute; reflexivity).
  assert (H2 : forall p : nat, occurs_at (key FEntry) swapped_payload p -> Z.of_nat p < 39)
    by (apply occurrences_before; vm_compute; reflexivity).
  split; [exact H1|].
  split; [apply occurs_at_check; vm_compute; reflexivity|].
  split; [exact H2|].
  exact (out_of_order_fails Q Exact.StringToDouble swapped_payload 0 FEntry 39 H1 H2).
Defined.

Lemma transport_failure_aborts_witness :
  web_status refused_terminal <> 200 /\
  OnTimer Exact.StringToDouble Exact.NormalizeDouble default_inputs refused_terminal
  = [CallWebRequest (str "GET") (SignalURL default_inputs) 2000] /\
  submissions (OnTimer Exact.StringToDouble Exact.NormalizeDouble
                       default_inputs refused_terminal) = [].
Proof.
  assert (H : web_status refused_terminal <> 200) by discriminate.
  split; [exact H|].
  exact (transport_failure_aborts Q Exact.StringToDouble Exact.NormalizeDouble
           default_inputs refused_terminal H).
Defined.

Lemma normalizer_frame_witness :
  web_status two_digit_venue = 200 /\
  0 <= scan_start two_digit_venue /\
  ParseSingleTrade Exact.StringToDouble (payload_of two_digit_venue)
                   (scan_start two_digit_venue) = Some sample_signal /\
  submissions (OnTimer Exact.StringToDouble Exact.NormalizeDouble
                       default_inputs two_digit_venue) =
  [CallBuy (lot sample_signal) (symbol sample_signal)
           (Exact.NormalizeDouble (entry sample_signal) 2)
           (Exact.NormalizeDouble (sl sample_signal) 2)
           (Exact.NormalizeDouble (tp sample_signal) 2)
           (TradeComment default_inputs)].
Proof.
  assert (H1 : web_status two_digit_venue = 200) by reflexivity.
  assert (H2 : 0 <= scan_start two_digit_venue)
    by (apply Z.leb_le; vm_compute; reflexivity).
  assert (H3 : ParseSingleTrade Exact.StringToDouble (payload_of two_digit_venue)
                 (scan_start two_digit_venue) = Some sample_signal)
    by (vm_compute; reflexivity).
  split; [exact H1|]. split; [exact H2|]. split; [exact H3|].
  exact (normalizer_frame Q Exact.StringToDouble Exact.NormalizeDouble
           default_inputs two_digit_venue sample_signal H1 H2 H3).
Defined.

Lemma direction_five_characters_witness :
  ParseSingleTrade Exact.StringToDouble padded_payload 0 = Some padded_signal /\
  search_from padded_payload 0 FIsBuy = Some 86 /\
  2 <= StringFind
         (StringSubstr padded_payload
            (StringFind padded_payload (key FIsBuy) 86 + 9) (-1))
         (str "true") 0 /\
  isBuy padded_signal = false.
Proof.
  assert (H1 : ParseSingleTrade Exact.StringToDouble padded_payload 0 = Some padded_signal)
    by (vm_compute; reflexivity).
  assert (H2 : search_from padded_payload 0 FIsBuy = Some 86)
    by (vm_compute; reflexivity).
  assert (H3 : 2 <= StringFind
                      (StringSubstr padded_payload
                         (StringFind padded_payload (key FIsBuy) 86 + 9) (-1))
                      (str "true") 0)
    by (apply Z.leb_le; vm_compute; reflexivity).
  split; [exact H1|]. split; [exact H2|]. split; [exact H3|].
  exact (proj2 (proj2 (proj2
           (direction_five_characters Q Exact.StringToDouble padded_payload 0
              padded_signal 86 H1 H2))) H3).
Defined.

(** ** Further properties of the cycle *)

Section CycleShape.

Variable double : Type.
Variable StringToDouble : mstring -> double.
Variable NormalizeDouble : double -> Z -> double.

Implicit Types (I : Inputs) (T : Terminal double) (sig : TradeSignal double).

Lemma occurs_char_In (c : ascii) (s : mstring) (p : nat) :
  occurs_at [c] s p -> In c s.
Proof.
  intros (a & b & -> & _). apply in_or_app. right. now left.
Qed.

Lemma StringFind_char_absent (c : ascii) (s : mstring) (start : Z) :
  ~ In c s -> StringFind s [c] start < 0.
Proof.
  intros Hc. destruct (StringFind_range s [c] start) as [H|H]; [lia|].
  exfalso. apply Hc.
  destruct (StringFind_found s [c] start _ ltac:(discriminate) eq_refl H) as (Hocc & _).
  exact (occurs_char_In _ _ _ Hocc).
Qed.

(** X1. A cycle submits at most one order. *)
Theorem at_most_one_order I T :
  (length (submissions (OnTimer StringToDouble NormalizeDouble I T)) <= 1)%nat.
Proof.
  rewrite submissions_of_cycle.
  destruct (parsed_signal StringToDouble T); simpl; lia.
Qed.

Lemma cycle_calls I T :
  OnTimer StringToDouble NormalizeDouble I T =
  CallWebRequest (str "GET") (SignalURL I) 2000 ::
  match parsed_signal StringToDouble T with
  | None => []
  | Some sig =>
    let digits := SymbolInfoInteger T (symbol sig) in
    let entry := NormalizeDouble (entry sig) digits in
    let sl := NormalizeDouble (sl sig) digits in
    let tp := NormalizeDouble (tp sig) digits in
    [ CallSymbolInfoInteger (symbol sig);
      order_for NormalizeDouble I sig digits;
      CallPrint (symbol sig) (isBuy sig) (lot sig) entry sl tp
                (order_accepted T (isBuy sig) (lot sig) (symbol sig) entry sl tp) ]
  end.
Proof.
  unfold OnTimer, parsed_signal, scan_start, payload_of, order_for.
  destruct (negb (web_status T =? 200)); [reflexivity|].
  destruct (StringFind _ _ 0 <? 0); [reflexivity|].
  destruct (ParseSingleTrade _ _ _) as [sig|]; reflexivity.
Qed.


(** X3. A payload without an opening brace, the empty payload included,
    is not scanned: the cycle is the web request alone, whatever fields
    the payload holds. *)
Theorem no_brace_aborts I T :
  ~ In "{"%char (payload_of T) ->
  OnTimer StringToDouble NormalizeDouble I T =
  [CallWebRequest (str "GET") (SignalURL I) 2000].
Proof.
  intros Hb. rewrite cycle_calls. unfold parsed_signal.
  destruct (negb _); [reflexivity|].
  pose proof (StringFind_char_absent _ _ 0 Hb) as H.
  unfold scan_start. change (str "{") with ["{"%char].
  apply Z.ltb_lt in H. now rewrite H.
Qed.

Lemma session_orders_events I (events : list (Event double)) reason :
  session_orders (session StringToDouble NormalizeDouble I events reason) =
  flat_map (fun ev => submissions (handle StringToDouble NormalizeDouble I ev)) events.
Proof.
  unfold session_orders, session, OnInit, OnDeinit. simpl.
  rewrite flat_map_app. simpl. rewrite app_nil_r.
  induction events as [|ev events IH]; [reflexivity|].
  simpl. rewrite map_app, flat_map_app. unfold submissions in *.
  rewrite filter_app, IH. f_equal.
  generalize (handle StringToDouble NormalizeDouble I ev). intros l.
  induction l as [|c l IHl]; [reflexivity|]. simpl. now rewrite IHl.
Qed.

(** X9. Over a whole session, orders come from timer events only, at
    most one from each: price ticks, initialization and shutdown submit
    nothing. *)
Theorem session_orders_bounded I (events : list (Event double)) reason :
  (length (session_orders (session StringToDouble NormalizeDouble I events reason))
   <= timer_count events)%nat.
Proof.
  rewrite session_orders_events. unfold timer_count.
  induction events as [|ev events IH]; [simpl; lia|].
  cbn [flat_map filter]. rewrite length_app.
  destruct ev as [|T]; cbn [handle].
  - exact IH.
  - assert (H : (length (submissions (OnTimer StringToDouble NormalizeDouble I T)) <= 1)%nat)
      by (rewrite submissions_of_cycle;
          destruct (parsed_signal StringToDouble T); simpl; lia).
    cbn [length]. lia.
Qed.

(** X10. Nothing is remembered from one cycle to the next: when the
    terminal gives the same answers during [n] timer events and they hold
    a signal, the same order is submitted [n] times. *)
Theorem no_deduplication I T sig (n : nat) reason :
  parsed_signal StringToDouble T = Some sig ->
  session_orders (session StringToDouble NormalizeDouble I (repeat (Timer T) n) reason) =
  repeat (order_for NormalizeDouble I sig (SymbolInfoInteger T (symbol sig))) n.
Proof.
  intros Hsig. rewrite session_orders_events.
  induction n as [|n IH]; [reflexivity|].
  cbn [repeat flat_map handle]. rewrite IH, submissions_of_cycle, Hsig. reflexivity.
Qed.

End CycleShape.

(** ** Further properties of the scanner *)

Section ScannedValues.

Implicit Types (json t u : mstring) (f : Field) (e s : Z).

Lemma In_StringSubstr json s (n : Z) (c : ascii) :
  0 <= n -> In c (StringSubstr json s n) ->
  exists i : nat, Z.of_nat i < n /\ occurs_at [c] json (Z.to_nat s + i).
Proof.
  intros Hn Hin. unfold StringSubstr in Hin.
  destruct (n <? 0) eqn:E; [apply Z.ltb_lt in E; lia|].
  set (l := skipn (Z.to_nat s) json) in *.
  destruct (in_split _ _ Hin) as (a & b & Hab).
  assert (Hlen : (length (firstn (Z.to_nat n) l) <= Z.to_nat n)%nat)
    by apply firstn_le_length.
  rewrite Hab, length_app in Hlen. simpl in Hlen.
  assert (Hs : (Z.to_nat s <= length json)%nat).
  { destruct (Nat.le_gt_cases (Z.to_nat s) (length json)) as [H|H]; [exact H|].
    exfalso. subst l. rewrite skipn_all2, firstn_nil in Hab by lia.
    destruct a; discriminate. }
  exists (length a). split; [lia|].
  exists (firstn (Z.to_nat s) json ++ a), (b ++ skipn (Z.to_nat n) l). split.
  - rewrite <- (firstn_skipn (Z.to_nat s) json) at 1. fold l.
    rewrite <- (firstn_skipn (Z.to_nat n) l) at 1. rewrite Hab.
    rewrite <- !app_assoc. reflexivity.
  - rewrite length_app, firstn_length_le by exact Hs. reflexivity.
Qed.

Lemma occurs_at_bound (m json : mstring) (p : nat) :
  occurs_at m json p -> (p + length m <= length json)%nat.
Proof. intros (a & b & -> & <-). rewrite !length_app. lia. Qed.

Lemma read_symbol_clean json start v e :
  read_symbol json start = Some (v, e) -> v <> [] /\ ~ In dquote v.
Proof.
  unfold read_symbol.
  set (pos := StringFind json (key FSymbol) start).
  destruct (pos <? 0) eqn:Hpos; [discriminate|].
  set (s0 := StringFind json [dquote] (pos + 9)).
  destruct (s0 <? 0) eqn:Hs0; [discriminate|]. apply Z.ltb_ge in Hs0.
  set (e1 := StringFind json [dquote] (s0 + 1)).
  destruct ((e1 <? 0) || (e1 <=? s0 + 1)) eqn:G; [discriminate|].
  apply orb_false_iff in G as [G1 G2]. apply Z.ltb_ge in G1. apply Z.leb_gt in G2.
  intros [= <- <-].
  destruct (StringFind_found json [dquote] (s0 + 1) e1 ltac:(discriminate) eq_refl G1)
    as (Hocc & _ & Hmin).
  split.
  - apply occurs_at_bound in Hocc. cbn [length] in Hocc.
    unfold StringSubstr.
    assert (E : (e1 - (s0 + 1) <? 0) = false) by (apply Z.ltb_ge; lia).
    rewrite E. intros Hnil. apply (f_equal (@length ascii)) in Hnil.
    rewrite length_firstn, length_skipn in Hnil. cbn [length] in Hnil. lia.
  - intros Hin. apply In_StringSubstr in Hin as (i & Hi & Hocc'); [|lia].
    apply (Hmin (Z.to_nat (s0 + 1) + i)%nat); [lia | exact Hocc'].
Qed.

Lemma value_end_no_comma json s e (p : nat) :
  value_end json s = Some e -> (Z.to_nat s <= p < Z.to_nat e)%nat ->
  ~ occurs_at (str ",") json p.
Proof.
  unfold value_end.
  destruct (StringFind json (str ",") s <? 0) eqn:Hc.
  - apply Z.ltb_lt in Hc. intros _ Hp. apply (StringFind_none json (str ",") s p Hc). lia.
  - apply Z.ltb_ge in Hc.
    destruct (_ || _); [discriminate|]. intros [= <-] Hp.
    destruct (StringFind_found json (str ",") s _ ltac:(discriminate) eq_refl Hc)
      as (_ & _ & Hmin).
    now apply Hmin.
Qed.

Lemma StringTrimLeft_head u c rest :
  StringTrimLeft u = c :: rest -> is_blank c = false.
Proof.
  induction u as [|x u IH]; simpl; [discriminate|].
  destruct (is_blank x) eqn:E; [exact IH|]. now intros [= <- _].
Qed.

Lemma StringTrimRight_last u init c :
  StringTrimRight u = init ++ [c] -> is_blank c = false.
Proof.
  unfold StringTrimRight. intros H.
  apply (f_equal (@rev ascii)) in H. rewrite rev_involutive, rev_app_distr in H.
  exact (StringTrimLeft_head _ _ _ H).
Qed.

Lemma trimmed_clean u :
  ~ In ","%char u -> clean_number_text (StringTrimRight (StringTrimLeft u)).
Proof.
  intros Hc.
  destruct (StringTrimLeft_split u) as (a & Ha).
  destruct (StringTrimRight_split (StringTrimLeft u)) as (b & Hb).
  split; [|split].
  - intros Hin. apply Hc. rewrite Ha, Hb.
    apply in_or_app. right. apply in_or_app. now left.
  - intros c rest Ht. rewrite Ht in Hb.
    exact (StringTrimLeft_head u c (rest ++ b) Hb).
  - intros init c Ht. exact (StringTrimRight_last _ _ _ Ht).
Qed.

Lemma read_double_clean json f e t e' :
  read_double (fun text => text) json f e = Some (t, e') -> clean_number_text t.
Proof.
  unfold read_double.
  destruct (value_start json f e) as [s|] eqn:Hs; [|discriminate].
  destruct (value_end json s) as [e1|] eqn:He; [|discriminate].
  intros [= <- <-]. apply trimmed_clean.
  destruct (value_start_Some _ _ _ _ Hs) as (p & _ & _ & Hsp).
  destruct (value_end_Some _ _ _ He) as (Hlt & _).
  intros Hin. apply In_StringSubstr in Hin as (i & Hi & Hocc); [|lia].
  apply (value_end_no_comma json s e1 _ He) in Hocc; [exact Hocc | lia].
Qed.

Lemma stage_key_position json f e r :
  stage_end json f e = Some r ->
  exists p : nat,
    occurs_at (key f) json p /\ e <= Z.of_nat p /\
    Z.of_nat p + Z.of_nat (length (key f)) <= r /\
    (f <> FIsBuy -> Z.of_nat p + Z.of_nat (length (key f)) < r).
Proof.
  assert (Hnum : forall g, skip_double json g e = Some r ->
            exists p : nat,
              occurs_at (key g) json p /\ e <= Z.of_nat p /\
              Z.of_nat p + Z.of_nat (length (key g)) <= r /\
              (g <> FIsBuy -> Z.of_nat p + Z.of_nat (length (key g)) < r)).
  { intros g. unfold skip_double.
    destruct (value_start json g e) as [s|] eqn:Hs; [|discriminate].
    intros He.
    destruct (value_start_Some _ _ _ _ Hs) as (p & Hp & Hocc & ->).
    destruct (value_end_Some _ _ _ He) as (Hlt & _).
    destruct (StringFind_found json (key g) e _ (key_nonempty g) Hp ltac:(lia))
      as (_ & Hle & _).
    exists p. split; [exact Hocc|]. split; [lia|]. split; [lia|]. intros _. lia. }
  destruct f; cbn [stage_end]; try apply Hnum.
  - unfold read_symbol.
    set (pos := StringFind json (key FSymbol) e).
    destruct (pos <? 0) eqn:Hpos; [discriminate|]. apply Z.ltb_ge in Hpos.
    set (s0 := StringFind json [dquote] (pos + 9)).
    destruct (s0 <? 0) eqn:Hs0; [discriminate|]. apply Z.ltb_ge in Hs0.
    set (e1 := StringFind json [dquote] (s0 + 1)).
    destruct ((e1 <? 0) || (e1 <=? s0 + 1)) eqn:G; [discriminate|].
    apply orb_false_iff in G as [G1 G2]. apply Z.ltb_ge in G1. apply Z.leb_gt in G2.
    cbn [option_map snd]. intros [= <-].
    destruct (StringFind_found json (key FSymbol) e pos (key_nonempty _) eq_refl Hpos)
      as (Hk & Hle & _).
    destruct (StringFind_found json [dquote] (pos + 9) s0 ltac:(discriminate) eq_refl Hs0)
      as (_ & Hle' & _).
    exists (Z.to_nat pos). change (Z.of_nat (length (key FSymbol))) with 9.
    split; [exact Hk|]. split; [lia|]. split; [lia|]. intros _. lia.
  - intros Hs.
    destruct (value_start_Some _ _ _ _ Hs) as (p & Hp & Hocc & ->).
    destruct (StringFind_found json (key FIsBuy) e _ (key_nonempty _) Hp ltac:(lia))
      as (_ & Hle & _).
    exists p. split; [exact Hocc|]. split; [lia|]. split; [lia|]. congruence.
Qed.

Lemma search_from_next json start f g e :
  next_field f = Some g -> search_from json start f = Some e ->
  search_from json start g = stage_end json f e.
Proof.
  destruct f; simpl; intros [= <-]; unfold search_from; simpl.
  - now intros [= <-].
  - now intros ->.
  - now intros ->.
  - now intros ->.
  - now intros ->.
Qed.

End ScannedValues.

Section ScannerInvariants.

Variable double : Type.
Variable StringToDouble : mstring -> double.

Implicit Types (json : mstring) (sig : TradeSignal double).

(** X5. The instrument of a parsed signal is never empty and holds no
    double quote. *)
Theorem parsed_symbol_clean json start sig :
  ParseSingleTrade StringToDouble json start = Some sig ->
  symbol sig <> [] /\ ~ In dquote (symbol sig).
Proof.
  unfold ParseSingleTrade.
  destruct (read_symbol json start) as [[v e]|] eqn:E; [|discriminate].
  pose proof (read_symbol_clean _ _ _ _ E) as Hv.
  repeat match goal with
  | |- context [read_double ?c ?j ?f ?x] =>
      destruct (read_double c j f x) as [[? ?]|]; [|discriminate]
  end.
  destruct (read_is_buy json _); [|discriminate].
  intros [= <-]. exact Hv.
Qed.

(** X6. Every number of a parsed signal is the conversion of a text that
    holds no comma and has no blank at either end. *)
Theorem parsed_numbers_from_clean_text json start sig :
  ParseSingleTrade StringToDouble json start = Some sig ->
  exists te ts tt tl : mstring,
    clean_number_text te /\ clean_number_text ts /\
    clean_number_text tt /\ clean_number_text tl /\
    entry sig = StringToDouble te /\ sl sig = StringToDouble ts /\
    tp sig = StringToDouble tt /\ lot sig = StringToDouble tl.
Proof.
  rewrite scan_then_convert. unfold ParseSingleTrade.
  destruct (read_symbol json start) as [[v e]|]; [|discriminate].
  destruct (read_double _ json FEntry e) as [[te e1]|] eqn:E1; [|discriminate].
  destruct (read_double _ json FSl e1) as [[ts e2]|] eqn:E2; [|discriminate].
  destruct (read_double _ json FTp e2) as [[tt e3]|] eqn:E3; [|discriminate].
  destruct (read_double _ json FLot e3) as [[tl e4]|] eqn:E4; [|discriminate].
  destruct (read_is_buy json e4); [|discriminate].
  simpl. intros [= <-]. exists te, ts, tt, tl.
  pose proof (read_double_clean _ _ _ _ _ E1).
  pose proof (read_double_clean _ _ _ _ _ E2).
  pose proof (read_double_clean _ _ _ _ _ E3).
  pose proof (read_double_clean _ _ _ _ _ E4).
  do 4 (split; [assumption|]). cbn [convert entry sl tp lot]. tauto.
Qed.

(** X7. In a payload that parses, the six keys occur in the order the
    scanner reads them, none before the start of the scan and each one
    wholly before the next. *)
Theorem parsed_keys_in_order json start sig :
  ParseSingleTrade StringToDouble json start = Some sig ->
  exists pos : Field -> nat,
    (forall f, occurs_at (key f) json (pos f)) /\
    start <= Z.of_nat (pos FSymbol) /\
    (forall f g, next_field f = Some g ->
       (pos f + length (key f) < pos g)%nat).
Proof.
  intros Hsig.
  assert (H : forall f, exists (e r : Z) (p : nat),
             search_from json start f = Some e /\ stage_end json f e = Some r /\
             occurs_at (key f) json p /\ e <= Z.of_nat p /\
             (f <> FIsBuy -> Z.of_nat p + Z.of_nat (length (key f)) < r)).
  { intros f.
    destruct (stage_success _ StringToDouble json start sig f Hsig) as (e & r & He & Hr).
    destruct (stage_key_position _ _ _ _ Hr) as (p & Hocc & Hle & _ & Hlt).
    exists e, r, p. repeat split; assumption. }
  destruct (H FSymbol) as (e0 & r0 & p0 & F0 & S0 & O0 & L0 & G0).
  destruct (H FEntry) as (e1 & r1 & p1 & F1 & S1 & O1 & L1 & G1).
  destruct (H FSl) as (e2 & r2 & p2 & F2 & S2 & O2 & L2 & G2).
  destruct (H FTp) as (e3 & r3 & p3 & F3 & S3 & O3 & L3 & G3).
  destruct (H FLot) as (e4 & r4 & p4 & F4 & S4 & O4 & L4 & G4).
  destruct (H FIsBuy) as (e5 & r5 & p5 & F5 & S5 & O5 & L5 & _).
  pose proof (search_from_next json start FSymbol FEntry e0 eq_refl F0) as N0.
  pose proof (search_from_next json start FEntry FSl e1 eq_refl F1) as N1.
  pose proof (search_from_next json start FSl FTp e2 eq_refl F2) as N2.
  pose proof (search_from_next json start FTp FLot e3 eq_refl F3) as N3.
  pose proof (search_from_next json start FLot FIsBuy e4 eq_refl F4) as N4.
  rewrite F1, S0 in N0. rewrite F2, S1 in N1. rewrite F3, S2 in N2.
  rewrite F4, S3 in N3. rewrite F5, S4 in N4.
  injection N0 as ->. injection N1 as ->. injection N2 as ->.
  injection N3 as ->. injection N4 as ->.
  specialize (G0 ltac:(discriminate)). specialize (G1 ltac:(discriminate)).
  specialize (G2 ltac:(discriminate)). specialize (G3 ltac:(discriminate)).
  specialize (G4 ltac:(discriminate)).
  injection F0 as <-.
  exists (fun f => match f with
                   | FSymbol => p0 | FEntry => p1 | FSl => p2
                   | FTp => p3 | FLot => p4 | FIsBuy => p5
                   end).
  split; [|split].
  - intros []; assumption.
  - exact L0.
  - intros [] g [= <-]; lia.
Qed.

End ScannerInvariants.

(** ** What precedes the scan *)

Section ShiftFacts.

Implicit Types (a b m json : mstring) (f : Field) (k e s : Z).

Lemma StringFind_shift a b m k :
  0 <= k ->
  StringFind (a ++ b) m (Z.of_nat (length a) + k) =
  if StringFind b m k <? 0 then StringFind b m k
  else Z.of_nat (length a) + StringFind b m k.
Proof.
  intros Hk. rewrite StringFind_app by exact Hk. unfold StringFind.
  destruct (find_first m _ _) as [i|].
  - destruct (Z.of_nat i <? 0) eqn:E; [apply Z.ltb_lt in E; lia | reflexivity].
  - reflexivity.
Qed.

Lemma StringSubstr_shift a b k (n : Z) :
  0 <= k ->
  StringSubstr (a ++ b) (Z.of_nat (length a) + k) n = StringSubstr b k n.
Proof.
  intros Hk. unfold StringSubstr.
  replace (Z.to_nat (Z.of_nat (length a) + k)) with (Z.to_nat k + length a)%nat by lia.
  now rewrite <- skipn_skipn, skipn_length_app.
Qed.

Lemma read_symbol_shift a b k :
  0 <= k ->
  read_symbol (a ++ b) (Z.of_nat (length a) + k) =
  moved (Z.of_nat (length a)) (read_symbol b k).
Proof.
  intros Hk. unfold read_symbol. cbv zeta.
  set (pos := StringFind b (key FSymbol) k).
  set (s0 := StringFind b [dquote] (pos + 9)).
  set (e1 := StringFind b [dquote] (s0 + 1)).
  rewrite (StringFind_shift a b (key FSymbol) k Hk). fold pos.
  destruct (pos <? 0) eqn:Hpos; [rewrite Hpos; reflexivity|].
  apply Z.ltb_ge in Hpos.
  set (n := Z.of_nat (length a)). assert (Hn : 0 <= n) by (subst n; lia).
  replace (n + pos <? 0) with false by (symmetry; apply Z.ltb_ge; lia).
  replace (n + pos + 9) with (n + (pos + 9)) by lia.
  unfold n. rewrite (StringFind_shift a b [dquote] (pos + 9)) by lia. fold n s0.
  destruct (s0 <? 0) eqn:Hs0; [rewrite Hs0; reflexivity|].
  apply Z.ltb_ge in Hs0.
  replace (n + s0 <? 0) with false by (symmetry; apply Z.ltb_ge; lia).
  replace (n + s0 + 1) with (n + (s0 + 1)) by lia.
  unfold n. rewrite (StringFind_shift a b [dquote] (s0 + 1)) by lia. fold n e1.
  destruct (e1 <? 0) eqn:He1; [rewrite He1; reflexivity|].
  apply Z.ltb_ge in He1.
  replace (n + e1 <? 0) with false by (symmetry; apply Z.ltb_ge; lia).
  replace (n + e1 <=? n + (s0 + 1)) with (e1 <=? s0 + 1)
    by (destruct (e1 <=? s0 + 1) eqn:E; symmetry;
        [apply Z.leb_le; apply Z.leb_le in E | apply Z.leb_gt; apply Z.leb_gt in E]; lia).
  cbn [orb]. destruct (e1 <=? s0 + 1); [reflexivity|].
  unfold moved. cbn [option_map fst snd].
  unfold n. rewrite StringSubstr_shift by lia. fold n.
  replace (n + e1 - (n + (s0 + 1))) with (e1 - (s0 + 1)) by lia. reflexivity.
Qed.

Lemma value_start_shift a b f k :
  0 <= k ->
  value_start (a ++ b) f (Z.of_nat (length a) + k) =
  option_map (Z.add (Z.of_nat (length a))) (value_start b f k).
Proof.
  intros Hk.
  destruct (value_start b f k) as [s|] eqn:Hs.
  - destruct (value_start_Some _ _ _ _ Hs) as (p & Hp & Hocc & ->).
    unfold value_start. rewrite StringFind_shift, Hp by exact Hk.
    replace (Z.of_nat p <? 0) with false by (symmetry; apply Z.ltb_ge; lia).
    replace (Z.of_nat (length a) + Z.of_nat p <? 0) with false
      by (symmetry; apply Z.ltb_ge; lia).
    rewrite StringFind_shift by lia. rewrite (key_colon b f p Hocc).
    pose proof (key_length_pos f).
    set (c := Z.of_nat p + Z.of_nat (length (key f)) - 1).
    replace (c <? 0) with false by (symmetry; apply Z.ltb_ge; subst c; lia).
    replace (Z.of_nat (length a) + c + 1 <=? 0) with false
      by (symmetry; apply Z.leb_gt; subst c; lia).
    cbn [option_map]. f_equal. subst c. lia.
  - apply value_start_None in Hs. apply value_start_None.
    rewrite StringFind_shift by exact Hk.
    destruct (_ <? 0) eqn:E; [exact Hs | apply Z.ltb_ge in E; lia].
Qed.

Lemma value_end_shift a b s :
  0 <= s ->
  value_end (a ++ b) (Z.of_nat (length a) + s) =
  option_map (Z.add (Z.of_nat (length a))) (value_end b s).
Proof.
  intros Hs. unfold value_end. cbv zeta.
  rewrite !StringFind_shift by exact Hs.
  set (n := Z.of_nat (length a)). assert (Hn : 0 <= n) by (subst n; lia).
  set (c := StringFind b (str ",") s). set (d := StringFind b (str "}") s).
  assert (Hcase : forall r, 0 <= r ->
            (if (n + r <? 0) || (n + r <=? n + s) then None else Some (n + r)) =
            option_map (Z.add n) (if r <=? s then None else Some r)).
  { intros r Hr.
    replace (n + r <? 0) with false by (symmetry; apply Z.ltb_ge; lia).
    replace (n + r <=? n + s) with (r <=? s)
      by (destruct (r <=? s) eqn:E; symmetry;
          [apply Z.leb_le; apply Z.leb_le in E | apply Z.leb_gt; apply Z.leb_gt in E]; lia).
    cbn [orb]. destruct (r <=? s); reflexivity. }
  destruct (c <? 0) eqn:Hc.
  - rewrite Hc. destruct (d <? 0) eqn:Hd.
    + rewrite Hd. reflexivity.
    + apply Z.ltb_ge in Hd. cbn [orb]. apply Hcase. exact Hd.
  - apply Z.ltb_ge in Hc.
    replace (n + c <? 0) with false by (symmetry; apply Z.ltb_ge; lia).
    replace (c <? 0) with false by (symmetry; apply Z.ltb_ge; lia).
    cbn [orb]. rewrite <- (Hcase c Hc).
    replace (n + c <? 0) with false by (symmetry; apply Z.ltb_ge; lia).
    reflexivity.
Qed.

Lemma value_start_nonneg json f e s : value_start json f e = Some s -> 0 <= s.
Proof.
  intros Hs. destruct (value_start_Some _ _ _ _ Hs) as (p & _ & _ & ->). lia.
Qed.

Lemma value_end_nonneg json s e : 0 <= s -> value_end json s = Some e -> 0 <= e.
Proof.
  intros Hs He. destruct (value_end_Some _ _ _ He) as (Hlt & _). lia.
Qed.

Lemma read_symbol_nonneg json k v e : read_symbol json k = Some (v, e) -> 0 <= e.
Proof.
  unfold read_symbol.
  destruct (_ <? 0); [discriminate|]. destruct (_ <? 0); [discriminate|].
  destruct ((_ <? 0) || _) eqn:G; [discriminate|].
  apply orb_false_iff in G as [G _]. apply Z.ltb_ge in G.
  now intros [= _ <-].
Qed.

Lemma find_first_char_skip (c : ascii) a b (i : nat) :
  ~ In c a -> find_first [c] (a ++ b) i = find_first [c] b (i + length a)%nat.
Proof.
  revert i; induction a as [|x a IH]; intros i Hc; simpl.
  - f_equal. lia.
  - destruct (Ascii.eqb c x) eqn:E.
    + apply Ascii.eqb_eq in E. exfalso. apply Hc. left. now symmetry.
    + simpl. rewrite IH by (intros H; apply Hc; now right). f_equal. lia.
Qed.

Lemma StringFind_char_skip (c : ascii) a b :
  ~ In c a ->
  StringFind (a ++ b) [c] 0 =
  if StringFind b [c] 0 <? 0 then StringFind b [c] 0
  else Z.of_nat (length a) + StringFind b [c] 0.
Proof.
  intros Hc. unfold StringFind. cbn [Z.to_nat skipn].
  rewrite find_first_char_skip by exact Hc.
  rewrite find_first_shift. cbn [Nat.add].
  destruct (find_first [c] b 0) as [i|]; cbn [option_map].
  - destruct (Z.of_nat i <? 0) eqn:E; [apply Z.ltb_lt in E; lia | lia].
  - reflexivity.
Qed.

End ShiftFacts.

Section PrefixIndependence.

Variable double : Type.
Variable StringToDouble : mstring -> double.
Variable NormalizeDouble : double -> Z -> double.

Implicit Types (a b pre json : mstring) (f : Field) (k e s : Z).

Lemma read_double_shift a b f k :
  0 <= k ->
  read_double StringToDouble (a ++ b) f (Z.of_nat (length a) + k) =
  moved (Z.of_nat (length a)) (read_double StringToDouble b f k).
Proof.
  intros Hk. unfold read_double. rewrite value_start_shift by exact Hk.
  destruct (value_start b f k) as [s|] eqn:Hs; [|reflexivity].
  cbn [option_map]. pose proof (value_start_nonneg _ _ _ _ Hs) as Hs0.
  rewrite value_end_shift by exact Hs0.
  destruct (value_end b s) as [e|]; [|reflexivity].
  cbn [option_map]. unfold moved. cbn [option_map fst snd].
  rewrite StringSubstr_shift by exact Hs0.
  replace (Z.of_nat (length a) + e - (Z.of_nat (length a) + s)) with (e - s) by lia.
  reflexivity.
Qed.

Lemma read_double_nonneg json f k v e :
  read_double StringToDouble json f k = Some (v, e) -> 0 <= e.
Proof.
  unfold read_double.
  destruct (value_start json f k) as [s|] eqn:Hs; [|discriminate].
  destruct (value_end json s) as [e'|] eqn:He; [|discriminate].
  intros [= _ <-].
  exact (value_end_nonneg _ _ _ (value_start_nonneg _ _ _ _ Hs) He).
Qed.

Lemma read_is_buy_shift a b k :
  0 <= k ->
  read_is_buy (a ++ b) (Z.of_nat (length a) + k) = read_is_buy b k.
Proof.
  intros Hk. unfold read_is_buy. rewrite value_start_shift by exact Hk.
  destruct (value_start b FIsBuy k) as [s|] eqn:Hs; [|reflexivity].
  cbn [option_map]. unfold direction_window.
  now rewrite StringSubstr_shift by exact (value_start_nonneg _ _ _ _ Hs).
Qed.

Lemma ParseSingleTrade_shift pre json k :
  0 <= k ->
  ParseSingleTrade StringToDouble (pre ++ json) (Z.of_nat (length pre) + k) =
  ParseSingleTrade StringToDouble json k.
Proof.
  intros Hk. unfold ParseSingleTrade.
  rewrite read_symbol_shift by exact Hk.
  destruct (read_symbol json k) as [[v e0]|] eqn:E0; [|reflexivity].
  unfold moved at 1. cbn [option_map fst snd].
  pose proof (read_symbol_nonneg _ _ _ _ E0) as H0.
  rewrite read_double_shift by exact H0.
  destruct (read_double _ json FEntry e0) as [[v1 e1]|] eqn:E1; [|reflexivity].
  unfold moved at 1. cbn [option_map fst snd].
  pose proof (read_double_nonneg _ _ _ _ _ E1) as H1.
  rewrite read_double_shift by exact H1.
  destruct (read_double _ json FSl e1) as [[v2 e2]|] eqn:E2; [|reflexivity].
  unfold moved at 1. cbn [option_map fst snd].
  pose proof (read_double_nonneg _ _ _ _ _ E2) as H2.
  rewrite read_double_shift by exact H2.
  destruct (read_double _ json FTp e2) as [[v3 e3]|] eqn:E3; [|reflexivity].
  unfold moved at 1. cbn [option_map fst snd].
  pose proof (read_double_nonneg _ _ _ _ _ E3) as H3.
  rewrite read_double_shift by exact H3.
  destruct (read_double _ json FLot e3) as [[v4 e4]|] eqn:E4; [|reflexivity].
  unfold moved at 1. cbn [option_map fst snd].
  pose proof (read_double_nonneg _ _ _ _ _ E4) as H4.
  rewrite read_is_buy_shift by exact H4.
  reflexivity.
Qed.

(** X4. The scan does not depend on what precedes its starting position:
    with any text put in front of the payload and the start moved by its
    length, the same signal, or the same failure, results.  So a cycle
    acts on the payload from its first opening brace on: bytes before that
    brace change nothing in the calls it makes. *)
Theorem scan_ignores_prefix pre json :
  (forall k, 0 <= k ->
     ParseSingleTrade StringToDouble (pre ++ json) (Z.of_nat (length pre) + k) =
     ParseSingleTrade StringToDouble json k) /\
  (~ In "{"%char pre ->
   forall I status bytes1 bytes2 precision verdict,
     CharArrayToString bytes1 = pre ++ json ->
     CharArrayToString bytes2 = json ->
     OnTimer StringToDouble NormalizeDouble I
             (mkTerminal status bytes1 precision verdict) =
     OnTimer StringToDouble NormalizeDouble I
             (mkTerminal status bytes2 precision verdict)).
Proof.
  split; [intros k Hk; now apply ParseSingleTrade_shift|].
  intros Hb I status bytes1 bytes2 precision verdict H1 H2.
  assert (Hsig : parsed_signal StringToDouble (mkTerminal status bytes1 precision verdict)
               = parsed_signal StringToDouble (mkTerminal status bytes2 precision verdict)).
  { unfold parsed_signal, scan_start, payload_of. cbn [web_status web_result].
    destruct (negb (status =? 200)); [reflexivity|].
    rewrite H1, H2. change (str "{") with ["{"%char].
    rewrite (StringFind_char_skip _ pre _ Hb).
    set (r := StringFind json ["{"%char] 0).
    destruct (r <? 0) eqn:E; [rewrite E; reflexivity|].
    apply Z.ltb_ge in E.
    replace (Z.of_nat (length pre) + r <? 0) with false
      by (symmetry; apply Z.ltb_ge; lia).
    apply ParseSingleTrade_shift. exact E. }
  rewrite !cycle_calls, Hsig. reflexivity.
Qed.

End PrefixIndependence.

(** ** Payloads written with blanks *)

Section SpacedFacts.

Implicit Types (a b m v w ws wc wd rest pre name : mstring) (f : Field).

Lemma blanks_cons (c : ascii) w : blanks (c :: w) -> is_blank c = true /\ blanks w.
Proof. unfold blanks. simpl. intros H. now apply andb_true_iff in H. Qed.

Lemma blanks_not_in (c : ascii) w : is_blank c = false -> blanks w -> ~ In c w.
Proof.
  intros Hc. induction w as [|x w IH]; intros Hw; [easy|].
  apply blanks_cons in Hw as [Hx Hw]. intros [->|H]; [congruence | now apply IH].
Qed.

Lemma find_first_hit m s (i : nat) :
  starts_with m s = true -> find_first m s i = Some i.
Proof. intros H. destruct s; simpl; now rewrite H. Qed.

Lemma find_first_blanks (c : ascii) m w rest (i : nat) :
  blanks w -> is_blank c = false ->
  find_first (c :: m) (w ++ rest) i = find_first (c :: m) rest (i + length w)%nat.
Proof.
  intros Hw Hc. revert i. induction w as [|x w IH]; intros i; simpl.
  - f_equal. lia.
  - apply blanks_cons in Hw as [Hx Hw].
    destruct (Ascii.eqb c x) eqn:E; [apply Ascii.eqb_eq in E; congruence|].
    simpl. rewrite IH by exact Hw. f_equal. lia.
Qed.

Lemma StringTrimLeft_blanks w v :
  blanks w -> StringTrimLeft (w ++ v) = StringTrimLeft v.
Proof.
  induction w as [|x w IH]; intros Hw; [reflexivity|].
  apply blanks_cons in Hw as [Hx Hw]. simpl. rewrite Hx. now apply IH.
Qed.

Lemma key_found_after_gap j ws f rest :
  gap j -> blanks ws ->
  find_first (key f) (j ++ ws ++ key f ++ rest) 0 = Some (length (j ++ ws)).
Proof.
  intros Hj Hws.
  assert (Hkey : exists m, key f = dquote :: m) by (destruct f; eexists; reflexivity).
  destruct Hkey as (m & Hm).
  assert (Hhit : starts_with (key f) (key f ++ rest) = true)
    by (apply starts_with_prefix; now exists rest).
  assert (Htail : forall i, find_first (key f) (ws ++ key f ++ rest) i
                            = Some (i + length ws)%nat).
  { intros i. rewrite Hm at 1. rewrite find_first_blanks by (exact Hws || reflexivity).
    rewrite <- Hm. now apply find_first_hit. }
  destruct Hj as [-> | ->].
  - change (str "," ++ ws ++ key f ++ rest) with (","%char :: ws ++ key f ++ rest).
    cbn [find_first]. rewrite Hm at 1. cbn [starts_with].
    change (Ascii.eqb dquote ","%char) with false. cbn [andb].
    rewrite Htail. reflexivity.
  - change ((dquote :: str ",") ++ ws ++ key f ++ rest)
      with (dquote :: ","%char :: ws ++ key f ++ rest).
    cbn [find_first].
    assert (H1 : starts_with (key f) (dquote :: ","%char :: ws ++ key f ++ rest) = false)
      by (destruct f; reflexivity).
    rewrite H1. rewrite Hm at 1. cbn [starts_with].
    change (Ascii.eqb dquote ","%char) with false. cbn [andb].
    rewrite Htail. reflexivity.
Qed.

Lemma value_start_spaced pre j ws f rest :
  gap j -> blanks ws ->
  value_start (pre ++ j ++ ws ++ key f ++ rest) f (Z.of_nat (length pre)) =
  Some (Z.of_nat (length (pre ++ j ++ ws ++ key f))).
Proof.
  intros Hj Hws. unfold value_start.
  assert (Hpos : StringFind (pre ++ j ++ ws ++ key f ++ rest) (key f)
                            (Z.of_nat (length pre))
                 = Z.of_nat (length (pre ++ j ++ ws))).
  { rewrite StringFind_app0, (key_found_after_gap j ws f rest Hj Hws).
    rewrite !length_app. lia. }
  rewrite Hpos.
  destruct (_ <? 0) eqn:E; [apply Z.ltb_lt in E; lia|].
  rewrite (key_colon _ f).
  - pose proof (key_length_pos f).
    destruct (_ <=? 0) eqn:E'; [apply Z.leb_le in E'; lia|].
    f_equal. rewrite !length_app. lia.
  - exists (pre ++ j ++ ws), rest. split; [now rewrite <- !app_assoc | reflexivity].
Qed.

End SpacedFacts.

Section SpacedRoundTrip.

Variable double : Type.
Variable StringToDouble : mstring -> double.
Variable fmt : double -> mstring.

Implicit Types (a v w ws wc wd rest pre name : mstring) (f : Field).

Lemma read_double_spaced pre j ws wc f v rest :
  gap j -> blanks ws -> blanks wc -> ~ In ","%char v -> v <> [] ->
  read_double StringToDouble
              (pre ++ j ++ ws ++ key f ++ wc ++ v ++ str "," ++ rest) f
              (Z.of_nat (length pre)) =
  Some (StringToDouble (StringTrimRight (StringTrimLeft v)),
        Z.of_nat (length (pre ++ j ++ ws ++ key f ++ wc ++ v))).
Proof.
  intros Hj Hws Hwc Hc Hv. unfold read_double.
  rewrite (value_start_spaced pre j ws f _ Hj Hws).
  set (a := pre ++ j ++ ws ++ key f).
  replace (pre ++ j ++ ws ++ key f ++ wc ++ v ++ str "," ++ rest)
    with (a ++ (wc ++ v) ++ str "," ++ rest)
    by (subst a; now rewrite <- !app_assoc).
  assert (Hc' : ~ In ","%char (wc ++ v)).
  { intros H. apply in_app_or in H as [H|H]; [|now apply Hc].
    exact (blanks_not_in ","%char wc eq_refl Hwc H). }
  assert (Hv' : wc ++ v <> []) by (destruct wc; [exact Hv | discriminate]).
  rewrite (value_end_at a (wc ++ v) rest Hc' Hv'), StringSubstr_at.
  rewrite (StringTrimLeft_blanks wc v Hwc).
  do 3 f_equal. subst a. now rewrite <- !app_assoc.
Qed.

Lemma read_symbol_spaced ws wc name rest :
  blanks ws -> blanks wc -> ~ In dquote name -> name <> [] ->
  read_symbol (str "{" ++ ws ++ key FSymbol ++ wc ++ dquote :: name ++ dquote :: rest) 0 =
  Some (name,
        Z.of_nat (length (str "{" ++ ws ++ key FSymbol ++ wc ++ dquote :: name))).
Proof.
  intros Hws Hwc Hq Hn. unfold read_symbol. cbv zeta.
  set (json := str "{" ++ _).
  set (a1 := str "{" ++ ws ++ key FSymbol).
  set (a2 := a1 ++ wc ++ [dquote]).
  assert (J1 : json = a1 ++ wc ++ dquote :: name ++ dquote :: rest)
    by (subst json a1; now rewrite <- !app_assoc).
  assert (J2 : json = a2 ++ name ++ dquote :: rest)
    by (rewrite J1; subst a2; now rewrite <- !app_assoc).
  assert (Hpos : StringFind json (key FSymbol) 0 = Z.of_nat (length a1) - 9).
  { unfold StringFind. cbn [Z.to_nat skipn]. subst json.
    change (str "{" ++ ws ++ key FSymbol ++ wc ++ dquote :: name ++ dquote :: rest)
      with ("{"%char :: ws ++ key FSymbol ++ wc ++ dquote :: name ++ dquote :: rest).
    cbn [find_first].
    change (starts_with (key FSymbol) ("{"%char :: _)) with false. cbn iota.
    change (key FSymbol) with (dquote :: str "symbol" ++ [dquote; ":"%char]) at 1.
    rewrite find_first_blanks by (exact Hws || reflexivity).
    rewrite find_first_hit
      by (apply starts_with_prefix; eexists; reflexivity).
    subst a1. change (str "{" ++ ws ++ key FSymbol) with ("{"%char :: ws ++ key FSymbol).
    cbn [length]. rewrite length_app.
    change (length (key FSymbol)) with 9%nat. lia. }
  rewrite Hpos.
  assert (Hlen1 : 9 <= Z.of_nat (length a1)).
  { subst a1. change (str "{" ++ ws ++ key FSymbol) with ("{"%char :: ws ++ key FSymbol).
    cbn [length]. rewrite length_app. change (length (key FSymbol)) with 9%nat. lia. }
  replace (Z.of_nat (length a1) - 9 <? 0) with false by (symmetry; apply Z.ltb_ge; lia).
  replace (Z.of_nat (length a1) - 9 + 9) with (Z.of_nat (length a1)) by lia.
  assert (Hs0 : StringFind json [dquote] (Z.of_nat (length a1))
                = Z.of_nat (length a1) + Z.of_nat (length wc)).
  { rewrite J1, StringFind_app0.
    rewrite find_first_char by (apply blanks_not_in; [reflexivity | exact Hwc]).
    lia. }
  rewrite Hs0.
  replace (_ + _ <? 0) with false by (symmetry; apply Z.ltb_ge; lia).
  replace (Z.of_nat (length a1) + Z.of_nat (length wc) + 1)
    with (Z.of_nat (length a2))
    by (subst a2; rewrite !length_app; cbn [length]; lia).
  assert (He : StringFind json [dquote] (Z.of_nat (length a2))
               = Z.of_nat (length (a2 ++ name))).
  { rewrite J2, StringFind_app0, find_first_char by exact Hq.
    rewrite length_app. lia. }
  rewrite He.
  assert (0 < length name)%nat by (destruct name; [contradiction | simpl; lia]).
  replace (Z.of_nat (length (a2 ++ name)) <? 0) with false
    by (symmetry; apply Z.ltb_ge; lia).
  replace (Z.of_nat (length (a2 ++ name)) <=? Z.of_nat (length a2)) with false
    by (symmetry; apply Z.leb_gt; rewrite length_app; lia).
  cbn [orb]. rewrite J2.
  change (dquote :: rest) with ([dquote] ++ rest).
  rewrite StringSubstr_at. do 3 f_equal.
  subst a2 a1. now rewrite <- !app_assoc.
Qed.

Lemma read_is_buy_spaced pre ws wd tail (b : bool) :
  blanks ws -> blanks wd -> (length wd <= 1)%nat ->
  read_is_buy (pre ++ str "," ++ ws ++ key FIsBuy ++ wd ++ direction_text b ++ tail)
              (Z.of_nat (length pre)) = Some b.
Proof.
  intros Hws Hwd Hlen. unfold read_is_buy.
  rewrite (value_start_spaced pre (str ",") ws FIsBuy _ (or_introl eq_refl) Hws).
  unfold direction_window, StringSubstr. rewrite Nat2Z.id.
  replace (pre ++ str "," ++ ws ++ key FIsBuy ++ wd ++ direction_text b ++ tail)
    with ((pre ++ str "," ++ ws ++ key FIsBuy) ++ wd ++ direction_text b ++ tail)
    by now rewrite <- !app_assoc.
  rewrite skipn_length_app.
  change (5 <? 0) with false. cbn iota. change (Z.to_nat 5) with 5%nat.
  destruct wd as [|c [|c' wd]]; [| |simpl in Hlen; lia].
  - destruct b; [|reflexivity].
    change (firstn 5 ([] ++ direction_text true ++ tail))
      with (str "true" ++ firstn 1 tail).
    f_equal. apply Z.leb_le. apply contains_StringFind; [discriminate|].
    apply contains_true_trimmed.
    exists 0%nat, [], (firstn 1 tail). split; reflexivity.
  - destruct b.
    + change (firstn 5 ([c] ++ direction_text true ++ tail))
        with ([c] ++ str "true").
      rewrite (StringTrimLeft_blanks [c] _ Hwd). reflexivity.
    + change (firstn 5 ([c] ++ direction_text false ++ tail))
        with ([c] ++ str "fals").
      rewrite (StringTrimLeft_blanks [c] _ Hwd). reflexivity.
Qed.

(** X8. A payload written with blanks after the opening brace, after each
    comma and after each colon, as writers of this format commonly do,
    still scans to the instruction it was built from, whatever follows the
    direction value, provided at most one blank follows the colon of the
    direction flag. *)
Theorem spaced_round_trip wb ws wc wd tail (i : TradeSignal double) :
  blanks wb -> blanks ws -> blanks wc -> blanks wd -> (length wd <= 1)%nat ->
  symbol i <> [] -> ~ In dquote (symbol i) ->
  wire_ok StringToDouble fmt (entry i) -> wire_ok StringToDouble fmt (sl i) ->
  wire_ok StringToDouble fmt (tp i) -> wire_ok StringToDouble fmt (lot i) ->
  StringFind (spaced_payload_for fmt wb ws wc wd tail i) (str "{") 0 = 0 /\
  ParseSingleTrade StringToDouble (spaced_payload_for fmt wb ws wc wd tail i) 0 = Some i.
Proof.
  intros Hwb Hws Hwc Hwd Hlen Hn Hq
         (He1 & He2 & He3) (Hs1 & Hs2 & Hs3) (Ht1 & Ht2 & Ht3) (Hl1 & Hl2 & Hl3).
  split; [reflexivity|].
  destruct i as [name en st tk lt b]. cbn [symbol entry sl tp lot isBuy] in *.
  unfold spaced_payload_for, spaced_payload. cbn [symbol entry sl tp lot isBuy].
  set (p1 := str "{" ++ wb ++ key FSymbol ++ wc ++ dquote :: name).
  set (p2 := p1 ++ (dquote :: str ",") ++ ws ++ key FEntry ++ wc ++ fmt en).
  set (p3 := p2 ++ str "," ++ ws ++ key FSl ++ wc ++ fmt st).
  set (p4 := p3 ++ str "," ++ ws ++ key FTp ++ wc ++ fmt tk).
  set (p5 := p4 ++ str "," ++ ws ++ key FLot ++ wc ++ fmt lt).
  set (t5 := str "," ++ ws ++ key FIsBuy ++ wd ++ direction_text b ++ tail).
  set (t4 := str "," ++ ws ++ key FLot ++ wc ++ fmt lt ++ t5).
  set (t3 := str "," ++ ws ++ key FTp ++ wc ++ fmt tk ++ t4).
  set (json := str "{" ++ _).
  assert (J1 : json = p1 ++ (dquote :: str ",") ++ ws ++ key FEntry ++ wc ++ fmt en ++
                      str "," ++ (ws ++ key FSl ++ wc ++ fmt st ++ t3)).
  { subst json p1 t3 t4 t5. rewrite <- !app_assoc. reflexivity. }
  assert (J2 : json = p2 ++ str "," ++ ws ++ key FSl ++ wc ++ fmt st ++
                      str "," ++ (ws ++ key FTp ++ wc ++ fmt tk ++ t4)).
  { rewrite J1. subst p2. rewrite <- !app_assoc. reflexivity. }
  assert (J3 : json = p3 ++ str "," ++ ws ++ key FTp ++ wc ++ fmt tk ++
                      str "," ++ (ws ++ key FLot ++ wc ++ fmt lt ++ t5)).
  { rewrite J2. subst p3. rewrite <- !app_assoc. reflexivity. }
  assert (J4 : json = p4 ++ str "," ++ ws ++ key FLot ++ wc ++ fmt lt ++
                      str "," ++ (ws ++ key FIsBuy ++ wd ++ direction_text b ++ tail)).
  { rewrite J3. subst p4. rewrite <- !app_assoc. reflexivity. }
  assert (J5 : json = p5 ++ str "," ++ ws ++ key FIsBuy ++ wd ++
                      direction_text b ++ tail).
  { rewrite J4. subst p5. rewrite <- !app_assoc. reflexivity. }
  unfold ParseSingleTrade.
  assert (R0 : read_symbol json 0 = Some (name, Z.of_nat (length p1))).
  { subst json p1. apply read_symbol_spaced; assumption. }
  rewrite R0.
  rewrite J1 at 1.
  rewrite (read_double_spaced p1 _ ws wc FEntry (fmt en) _
             (or_intror eq_refl) Hws Hwc He2 He1).
  fold p2. rewrite J2 at 1.
  rewrite (read_double_spaced p2 _ ws wc FSl (fmt st) _
             (or_introl eq_refl) Hws Hwc Hs2 Hs1).
  fold p3. rewrite J3 at 1.
  rewrite (read_double_spaced p3 _ ws wc FTp (fmt tk) _
             (or_introl eq_refl) Hws Hwc Ht2 Ht1).
  fold p4. rewrite J4 at 1.
  rewrite (read_double_spaced p4 _ ws wc FLot (fmt lt) _
             (or_introl eq_refl) Hws Hwc Hl2 Hl1).
  fold p5. rewrite J5 at 1.
  rewrite (read_is_buy_spaced p5 ws wd tail b Hws Hwd Hlen).
  rewrite He3, Hs3, Ht3, Hl3. reflexivity.
Qed.

End SpacedRoundTrip.

(** ** The further properties on concrete payloads *)


Lemma no_brace_aborts_witness :
  ~ In "{"%char (payload_of (serving (double := Q) braceless_payload (fun _ => Some 2))) /\
  OnTimer Exact.StringToDouble Exact.NormalizeDouble default_inputs
          (serving braceless_payload (fun _ => Some 2)) =
  [CallWebRequest (str "GET") (SignalURL default_inputs) 2000].
Proof.
  assert (H : ~ In "{"%char
                (payload_of (serving (double := Q) braceless_payload (fun _ => Some 2))))
    by (vm_compute; intros H; repeat (destruct H as [H|H]; [discriminate H|]); exact H).
  split; [exact H|].
  exact (no_brace_aborts Q Exact.StringToDouble Exact.NormalizeDouble default_inputs
           (serving braceless_payload (fun _ => Some 2)) H).
Defined.

Lemma scan_ignores_prefix_witness :
  ~ In "{"%char banner /\
  CharArrayToString (banner ++ sample_payload) = banner ++ sample_payload /\
  CharArrayToString sample_payload = sample_payload /\
  ParseSingleTrade Exact.StringToDouble (banner ++ sample_payload)
                   (Z.of_nat (length banner) + 0) =
  ParseSingleTrade Exact.StringToDouble sample_payload 0 /\
  OnTimer Exact.StringToDouble Exact.NormalizeDouble default_inputs
          (mkTerminal 200 (banner ++ sample_payload) (fun _ => Some 2)
                      (fun _ _ _ _ _ _ => true)) =
  OnTimer Exact.StringToDouble Exact.NormalizeDouble default_inputs
          (mkTerminal 200 sample_payload (fun _ => Some 2) (fun _ _ _ _ _ _ => true)).
Proof.
  assert (H0 : ~ In "{"%char banner) by not_in_text.
  assert (H1 : CharArrayToString (banner ++ sample_payload) = banner ++ sample_payload)
    by (vm_compute; reflexivity).
  assert (H2 : CharArrayToString sample_payload = sample_payload)
    by (vm_compute; reflexivity).
  assert (Hk : 0 <= 0) by lia.
  pose proof (scan_ignores_prefix Q Exact.StringToDouble Exact.NormalizeDouble
                banner sample_payload) as [P1 P2].
  split; [exact H0|]. split; [exact H1|]. split; [exact H2|].
  split; [exact (P1 0 Hk)|].
  exact (P2 H0 default_inputs 200 _ _ (fun _ => Some 2) (fun _ _ _ _ _ _ => true) H1 H2).
Defined.

Lemma parsed_symbol_clean_witness :
  ParseSingleTrade Exact.StringToDouble sample_payload 0 = Some sample_signal /\
  symbol sample_signal <> [] /\ ~ In dquote (symbol sample_signal).
Proof.
  assert (H : ParseSingleTrade Exact.StringToDouble sample_payload 0 = Some sample_signal)
    by (vm_compute; reflexivity).
  split; [exact H|].
  exact (parsed_symbol_clean Q Exact.StringToDouble sample_payload 0 sample_signal H).
Defined.

Lemma parsed_numbers_from_clean_text_witness :
  ParseSingleTrade Exact.StringToDouble indented_payload 0 = Some sample_signal /\
  exists te ts tt tl : mstring,
    clean_number_text te /\ clean_number_text ts /\
    clean_number_text tt /\ clean_number_text tl /\
    entry sample_signal = Exact.StringToDouble te /\
    sl sample_signal = Exact.StringToDouble ts /\
    tp sample_signal = Exact.StringToDouble tt /\
    lot sample_signal = Exact.StringToDouble tl.
Proof.
  assert (H : ParseSingleTrade Exact.StringToDouble indented_payload 0 = Some sample_signal)
    by (vm_compute; reflexivity).
  split; [exact H|].
  exact (parsed_numbers_from_clean_text Q Exact.StringToDouble indented_payload 0
           sample_signal H).
Defined.

Lemma parsed_keys_in_order_witness :
  ParseSingleTrade Exact.StringToDouble sample_payload 0 = Some sample_signal /\
  exists pos : Field -> nat,
    (forall f, occurs_at (key f) sample_payload (pos f)) /\
    0 <= Z.of_nat (pos FSymbol) /\
    (forall f g, next_field f = Some g ->
       (pos f + length (key f) < pos g)%nat).
Proof.
  assert (H : ParseSingleTrade Exact.StringToDouble sample_payload 0 = Some sample_signal)
    by (vm_compute; reflexivity).
  split; [exact H|].
  exact (parsed_keys_in_order Q Exact.StringToDouble sample_payload 0 sample_signal H).
Defined.

Lemma spaced_round_trip_witness :
  StringFind indented_payload (str "{") 0 = 0 /\
  ParseSingleTrade Exact.StringToDouble indented_payload 0 = Some sample_signal.
Proof.
  apply (spaced_round_trip Q Exact.StringToDouble five_places
           (newline :: str "  ") (newline :: str "  ") (str " ") (str " ")
           [newline; "}"%char] sample_signal).
  - reflexivity.
  - reflexivity.
  - reflexivity.
  - reflexivity.
  - simpl. lia.
  - discriminate.
  - not_in_text.
  - split; [discriminate | split; [not_in_text | vm_compute; reflexivity]].
  - split; [discriminate | split; [not_in_text | vm_compute; reflexivity]].
  - split; [discriminate | split; [not_in_text | vm_compute; reflexivity]].
  - split; [discriminate | split; [not_in_text | vm_compute; reflexivity]].
Defined.

Lemma no_deduplication_witness :
  parsed_signal Exact.StringToDouble two_digit_venue = Some sample_signal /\
  session_orders (session Exact.StringToDouble Exact.NormalizeDouble default_inputs
                          (repeat (Timer two_digit_venue) 3) 0) =
  repeat (order_for Exact.NormalizeDouble default_inputs sample_signal
            (SymbolInfoInteger two_digit_venue (symbol sample_signal))) 3.
Proof.
  assert (H : parsed_signal Exact.StringToDouble two_digit_venue = Some sample_signal)
    by (vm_compute; reflexivity).
  split; [exact H|].
  exact (no_deduplication Q Exact.StringToDouble Exact.NormalizeDouble default_inputs
           two_digit_venue sample_signal 3 0 H).
Defined.
